(** * caddy-iri-attach: the attachToTangle interception handler

    A shallow embedding of [plugin.go] (package [attach]) and the properties
    of its request handler [ServeHTTP] and of the proof-of-work loop [doPow].

    The handler talks to the outside world (the clock, the proof-of-work
    function, the next handler of the middleware chain, the JSON encoder, the
    logger, the response writer and the package-wide mutex).  Each such call
    is a node of a program tree [prog]; the tree is then run against an
    environment ([run]), reasoned about for all environments at once ([post])
    and interleaved with the trees of other requests ([step]). *)

From Stdlib Require Import ZArith.
From stdpp Require Import base list relations strings pretty.

Local Open Scope Z_scope.

(** ** Go values *)

(** [[]byte] *)
Definition bytes := list Byte.byte.

(** 64-bit signed arithmetic wraps around. *)
Definition wrap64 (z : Z) : Z := (z + 2 ^ 63) `mod` 2 ^ 64 - 2 ^ 63.

(** Go's [error] values: the package's sentinels, [errors.Wrapf] around one of
    them, and errors made outside the package (by the body reader, the
    proof-of-work function, the next handler or the JSON encoder). *)
Inductive error : Type :=
| ErrMissingBody
| ErrBodyUnparsable
| ErrFetchRawTips
| ErrBuildingTx
| ErrBuildingRes
| ErrMissingTxBundleLimit
| ErrTxBundleLimitExceeded
| Wrapf (cause : error) (msg : string)
| ErrForeign (msg : string).

(** The [Error()] method: the message of an error. *)
Fixpoint Error (e : error) : string :=
  match e with
  | ErrMissingBody => "missing body"
  | ErrBodyUnparsable => "body can't be parsed to command"
  | ErrFetchRawTips => "couldn't fetch raw tips data from node"
  | ErrBuildingTx => "couldn't build transaction from trytes"
  | ErrBuildingRes => "couldn't build response"
  | ErrMissingTxBundleLimit => "expected tx bundle limit after the attach directive"
  | ErrTxBundleLimitExceeded => "the number of transactions exceeds the limit"
  | Wrapf cause msg => msg +:+ ": " +:+ Error cause
  | ErrForeign msg => msg
  end.

(** [fmt.Sprintf("max allowed is %d", n)] *)
Definition sprintf_max_allowed (n : Z) : string := "max allowed is " +:+ pretty n.

Definition StatusOK : Z := 200.
Definition StatusBadRequest : Z := 400.
Definition StatusInternalServerError : Z := 500.
Definition MethodPost : string := "POST".

(** ** The giota library, as far as the handler uses it *)

Module giota.

(** [giota.Trytes] is a string type. *)
Definition Trytes := string.

(** Modelled from the spec: the declaration of [giota.Transaction] is not
    part of the repository.  The record has the signed [Value], the six
    fields the attacher writes, and the remaining fields, which the handler
    never names, gathered in [Payload]. *)
Record Transaction (P : Type) : Type := mkTransaction {
  Payload : P;
  Value : Z;
  TrunkTransaction : Trytes;
  BranchTransaction : Trytes;
  AttachmentTimestamp : Trytes;
  AttachmentTimestampLowerBound : Trytes;
  AttachmentTimestampUpperBound : Trytes;
  Nonce : Trytes
}.
Arguments mkTransaction {P}.
Arguments Payload {P}.
Arguments Value {P}.
Arguments TrunkTransaction {P}.
Arguments BranchTransaction {P}.
Arguments AttachmentTimestamp {P}.
Arguments AttachmentTimestampLowerBound {P}.
Arguments AttachmentTimestampUpperBound {P}.
Arguments Nonce {P}.

(** Field assignments [tx.F = v]. *)
Section Assign.
Context {P : Type}.
Definition setTrunkTransaction (v : Trytes) (t : Transaction P) :=
  mkTransaction (Payload t) (Value t) v (BranchTransaction t)
    (AttachmentTimestamp t) (AttachmentTimestampLowerBound t)
    (AttachmentTimestampUpperBound t) (Nonce t).
Definition setBranchTransaction (v : Trytes) (t : Transaction P) :=
  mkTransaction (Payload t) (Value t) (TrunkTransaction t) v
    (AttachmentTimestamp t) (AttachmentTimestampLowerBound t)
    (AttachmentTimestampUpperBound t) (Nonce t).
Definition setAttachmentTimestamp (v : Trytes) (t : Transaction P) :=
  mkTransaction (Payload t) (Value t) (TrunkTransaction t) (BranchTransaction t)
    v (AttachmentTimestampLowerBound t)
    (AttachmentTimestampUpperBound t) (Nonce t).
Definition setAttachmentTimestampLowerBound (v : Trytes) (t : Transaction P) :=
  mkTransaction (Payload t) (Value t) (TrunkTransaction t) (BranchTransaction t)
    (AttachmentTimestamp t) v
    (AttachmentTimestampUpperBound t) (Nonce t).
Definition setAttachmentTimestampUpperBound (v : Trytes) (t : Transaction P) :=
  mkTransaction (Payload t) (Value t) (TrunkTransaction t) (BranchTransaction t)
    (AttachmentTimestamp t) (AttachmentTimestampLowerBound t)
    v (Nonce t).
Definition setNonce (v : Trytes) (t : Transaction P) :=
  mkTransaction (Payload t) (Value t) (TrunkTransaction t) (BranchTransaction t)
    (AttachmentTimestamp t) (AttachmentTimestampLowerBound t)
    (AttachmentTimestampUpperBound t) v.
End Assign.

(** The codec of the library, which the handler calls and the repository
    does not contain: [NewTransaction] (which can fail), the methods
    [Trytes()] and [Hash()] of a transaction, and
    [Int2Trits(v, TimestampTrinarySize).Trytes()]. *)
Class Codec (P : Type) : Type := {
  NewTransaction : Trytes -> option (Transaction P);
  TxTrytes : Transaction P -> Trytes;
  TxHash : Transaction P -> Trytes;
  TimestampTrytes : Z -> Trytes
}.

End giota.

(** ** The types of the package *)

(** The request body: a stream that holds the data not read yet, or one
    that fails when it is read. *)
Inductive ReadCloser : Type :=
| Reader (data : bytes)
| BrokenReader (e : error).

(** What [ioutil.ReadAll] returns. *)
Definition ReadAll (b : ReadCloser) : bytes * option error :=
  match b with
  | Reader data => (data, None)
  | BrokenReader e => ([], Some e)
  end.

(** The stream after [ioutil.ReadAll]: what it held has been read, and
    nothing is left to read again. *)
Definition drained (b : ReadCloser) : ReadCloser :=
  match b with
  | Reader _ => Reader []
  | BrokenReader e => BrokenReader e
  end.

(** [ioutil.NopCloser(bytes.NewReader(contents))] *)
Definition NopCloser (contents : bytes) : ReadCloser := Reader contents.

(** The part of [http.Request] the handler reads or writes. *)
Record Request : Type := mkRequest {
  Method : string;
  Body : option ReadCloser;
  RemoteAddr : string
}.

Definition setBody (b : ReadCloser) (r : Request) : Request :=
  mkRequest (Method r) (Some b) (RemoteAddr r).

Record AttachToTangleCmd : Type := mkCmd {
  Command : string;
  TrunkTxHash : giota.Trytes;
  BranchTxHash : giota.Trytes;
  MWM : Z;
  Trytes : list giota.Trytes
}.

Record AttachToTangleRes : Type := mkRes {
  ResTrytes : list giota.Trytes;
  Duration : Z
}.

Definition attachToTangleCommand : string := "attachToTangle".

(** [json.NewDecoder(bytes.NewReader(contents)).Decode(&command)], with
    [command] a pointer to a fresh [AttachToTangleCmd]: the pointer after
    the call and the error.  The call decodes into the pointer itself, so
    the JSON value [null] sets it to nil ([None]) and is no error. *)
Definition Decoder : Type := bytes -> option AttachToTangleCmd * option error.

Definition contentType : string := "Content-Type".
Definition contentTypeJSON : string := "application/json".
Definition maxTimestampTrytes : giota.Trytes := "L99999999".

(** The bundle handed to [doPow]: the two anchors and the transactions. *)
Record Transaction (P : Type) : Type := mkBundle {
  Trunk : giota.Trytes;
  Branch : giota.Trytes;
  Transactions : list (giota.Transaction P)
}.
Arguments mkBundle {P}.
Arguments Trunk {P}.
Arguments Branch {P}.
Arguments Transactions {P}.

(** The lines [log.Printf] writes, by their arguments. *)
Inductive LogLine : Type :=
| LogNewRequest (remoteAddr : string)
| LogInput (inputValue : Z)
| LogDoingPow (txs : nat) (valueTx : bool)
| LogTookPow (ms : Z) (txs : nat).

(** ** Programs *)

(** A handler is a tree: it returns, panics, or calls the outside world and
    goes on with what the call returned. *)
Inductive prog (R : Type) : Type :=
| Ret (r : R)
| Panic
| Lock (k : prog R)
| Unlock (k : prog R)
| Now (k : Z -> prog R)
| Pow (trytes : giota.Trytes) (mwm : Z) (k : giota.Trytes * option error -> prog R)
| NextServeHTTP (r : Request) (k : Z * option error -> prog R)
| Marshal (res : AttachToTangleRes) (k : bytes * option error -> prog R)
| Printf (l : LogLine) (k : prog R)
| HeaderSet (key value : string) (k : prog R)
| WriteBody (b : bytes) (k : prog R).
Arguments Ret {R}.
Arguments Panic {R}.
Arguments Lock {R}.
Arguments Unlock {R}.
Arguments Now {R}.
Arguments Pow {R}.
Arguments NextServeHTTP {R}.
Arguments Marshal {R}.
Arguments Printf {R}.
Arguments HeaderSet {R}.
Arguments WriteBody {R}.

Fixpoint bind {A B : Type} (p : prog A) (f : A -> prog B) : prog B :=
  match p with
  | Ret r => f r
  | Panic => Panic
  | Lock k => Lock (bind k f)
  | Unlock k => Unlock (bind k f)
  | Now k => Now (fun ns => bind (k ns) f)
  | Pow t m k => Pow t m (fun x => bind (k x) f)
  | NextServeHTTP r k => NextServeHTTP r (fun x => bind (k x) f)
  | Marshal res k => Marshal res (fun x => bind (k x) f)
  | Printf l k => Printf l (bind k f)
  | HeaderSet key v k => HeaderSet key v (bind k f)
  | WriteBody b k => WriteBody b (bind k f)
  end.

#[export] Instance prog_ret : MRet prog := @Ret.
#[export] Instance prog_bind : MBind prog := fun A B f p => bind p f.

(** [defer mu.Unlock()]: the mutex is released when the function returns,
    and when it panics. *)
Fixpoint deferUnlock {R : Type} (p : prog R) : prog R :=
  match p with
  | Ret r => Unlock (Ret r)
  | Panic => Unlock Panic
  | Lock k => Lock (deferUnlock k)
  | Unlock k => Unlock (deferUnlock k)
  | Now k => Now (fun ns => deferUnlock (k ns))
  | Pow t m k => Pow t m (fun x => deferUnlock (k x))
  | NextServeHTTP r k => NextServeHTTP r (fun x => deferUnlock (k x))
  | Marshal res k => Marshal res (fun x => deferUnlock (k x))
  | Printf l k => Printf l (deferUnlock k)
  | HeaderSet key v k => HeaderSet key v (deferUnlock k)
  | WriteBody b k => WriteBody b (deferUnlock k)
  end.

(** ** Running a program *)

(** What a run leaves behind, call by call. *)
Inductive Event : Type :=
| EvLock
| EvUnlock
| EvNow (ns : Z)
| EvPow (trytes : giota.Trytes) (mwm : Z) (res : giota.Trytes * option error)
| EvNext (r : Request) (res : Z * option error)
| EvMarshal (res : AttachToTangleRes) (out : bytes * option error)
| EvPrintf (l : LogLine)
| EvHeaderSet (key value : string)
| EvWrite (b : bytes).

(** The outside world: what the clock shows, and what the proof-of-work
    function, the next handler and the JSON encoder return, each at the
    [n]-th call of the run. *)
Record Env : Type := mkEnv {
  clock : nat -> Z;
  powFn : nat -> giota.Trytes -> Z -> giota.Trytes * option error;
  next : nat -> Request -> Z * option error;
  marshal : nat -> AttachToTangleRes -> bytes * option error
}.

Record World : Type := mkWorld {
  trace : list Event;
  locked : bool
}.

Definition record (e : Event) (w : World) : World :=
  mkWorld (trace w ++ [e]) (locked w).

Inductive Outcome (R : Type) : Type :=
| Returned (r : R)
| Panicked
| Blocked.
Arguments Returned {R}.
Arguments Panicked {R}.
Arguments Blocked {R}.

(** One goroutine running alone: [mu.Lock()] on a locked mutex never
    returns. *)
Fixpoint run {R : Type} (env : Env) (p : prog R) (w : World) : Outcome R * World :=
  let n := length (trace w) in
  match p with
  | Ret r => (Returned r, w)
  | Panic => (Panicked, w)
  | Lock k =>
      if locked w then (Blocked, w)
      else run env k (mkWorld (trace w ++ [EvLock]) true)
  | Unlock k => run env k (mkWorld (trace w ++ [EvUnlock]) false)
  | Now k => let ns := clock env n in run env (k ns) (record (EvNow ns) w)
  | Pow t m k =>
      let res := powFn env n t m in run env (k res) (record (EvPow t m res) w)
  | NextServeHTTP r k =>
      let res := next env n r in run env (k res) (record (EvNext r res) w)
  | Marshal res k =>
      let out := marshal env n res in run env (k out) (record (EvMarshal res out) w)
  | Printf l k => run env k (record (EvPrintf l) w)
  | HeaderSet key v k => run env k (record (EvHeaderSet key v) w)
  | WriteBody b k => run env k (record (EvWrite b) w)
  end.

(** ** All runs at once *)

(** [post p tr Q]: whatever the outside world returns, [p] started after the
    calls [tr] does not panic, and [Q] holds of the calls made and the value
    returned. *)
Fixpoint post {R : Type} (p : prog R) (tr : list Event)
    (Q : list Event -> R -> Prop) : Prop :=
  match p with
  | Ret r => Q tr r
  | Panic => False
  | Lock k => post k (tr ++ [EvLock]) Q
  | Unlock k => post k (tr ++ [EvUnlock]) Q
  | Now k => forall ns, post (k ns) (tr ++ [EvNow ns]) Q
  | Pow t m k => forall res, post (k res) (tr ++ [EvPow t m res]) Q
  | NextServeHTTP r k => forall res, post (k res) (tr ++ [EvNext r res]) Q
  | Marshal res k => forall out, post (k out) (tr ++ [EvMarshal res out]) Q
  | Printf l k => post k (tr ++ [EvPrintf l]) Q
  | HeaderSet key v k => post k (tr ++ [EvHeaderSet key v]) Q
  | WriteBody b k => post k (tr ++ [EvWrite b]) Q
  end.

(** [bracketed held p]: started with the mutex [held] or not, [p] locks
    only a mutex it does not hold, unlocks only one it holds, calls the
    proof-of-work function only while it holds the mutex, and does not hold
    it when it ends. *)
Fixpoint bracketed {R : Type} (held : bool) (p : prog R) : Prop :=
  match p with
  | Ret _ => held = false
  | Panic => held = false
  | Lock k => held = false /\ bracketed true k
  | Unlock k => held = true /\ bracketed false k
  | Now k => forall ns, bracketed held (k ns)
  | Pow _ _ k => held = true /\ forall res, bracketed held (k res)
  | NextServeHTTP _ k => forall res, bracketed held (k res)
  | Marshal _ k => forall out, bracketed held (k out)
  | Printf _ k => bracketed held k
  | HeaderSet _ _ k => bracketed held k
  | WriteBody _ k => bracketed held k
  end.

(** [emits ok p]: every call [p] can make is one [ok] allows. *)
Fixpoint emits {R : Type} (ok : Event -> Prop) (p : prog R) : Prop :=
  match p with
  | Ret _ => True
  | Panic => True
  | Lock k => ok EvLock /\ emits ok k
  | Unlock k => ok EvUnlock /\ emits ok k
  | Now k => forall ns, ok (EvNow ns) /\ emits ok (k ns)
  | Pow t m k => forall res, ok (EvPow t m res) /\ emits ok (k res)
  | NextServeHTTP r k => forall res, ok (EvNext r res) /\ emits ok (k res)
  | Marshal res k => forall out, ok (EvMarshal res out) /\ emits ok (k out)
  | Printf l k => ok (EvPrintf l) /\ emits ok k
  | HeaderSet key v k => ok (EvHeaderSet key v) /\ emits ok k
  | WriteBody b k => ok (EvWrite b) /\ emits ok k
  end.

(** [lockfree p]: [p] does not touch the mutex. *)
Definition lockfree {R : Type} (p : prog R) : Prop :=
  emits (fun e => e <> EvLock /\ e <> EvUnlock) p.

(** The calls, as programs that return what the call returned. *)
Definition now : prog Z := Now Ret.
Definition pow (trytes : giota.Trytes) (mwm : Z) : prog (giota.Trytes * option error) :=
  Pow trytes mwm Ret.
Definition nextServeHTTP (r : Request) : prog (Z * option error) := NextServeHTTP r Ret.
Definition jsonMarshal (res : AttachToTangleRes) : prog (bytes * option error) :=
  Marshal res Ret.
Definition printf (l : LogLine) : prog unit := Printf l (Ret tt).
Definition headerSet (key value : string) : prog unit := HeaderSet key value (Ret tt).
Definition write (b : bytes) : prog unit := WriteBody b (Ret tt).

(** ** The handler *)

Section Handler.

Context {P : Type} `{!giota.Codec P}.

(** The JSON decoder. *)
Variable jsonDecode : Decoder.

(** The package variable [maxTxInBundle], which [setup] reads from the
    [attach] directive (200 without an argument). *)
Variable maxTxInBundle : Z.

Abbreviation gtx := (giota.Transaction P).

(** The [switch] of [doPow]: the newest transaction refers to the two
    anchors, every other one to the hash of the transaction stamped before
    it and to the trunk anchor. *)
Definition link (tra : Transaction P) (newest : bool) (prev : giota.Trytes)
    (t : gtx) : gtx :=
  if newest
  then giota.setBranchTransaction (Branch tra)
         (giota.setTrunkTransaction (Trunk tra) t)
  else giota.setBranchTransaction (Trunk tra)
         (giota.setTrunkTransaction prev t).

(** The three timestamp assignments of [doPow], [ns] being
    [time.Now().UnixNano()]. *)
Definition stamp (ns : Z) (t : gtx) : gtx :=
  let timestamp := giota.TimestampTrytes (ns `quot` 1000000) in
  let t := giota.setAttachmentTimestamp timestamp t in
  let t := giota.setAttachmentTimestampLowerBound "" t in
  giota.setAttachmentTimestampUpperBound maxTimestampTrytes t.

(** The loop of [doPow], about to run with [i = n - 1].  The slice [tx] is
    shared with the caller, which sees every assignment: it is returned
    next to the error. *)
Fixpoint doPowFrom (tra : Transaction P) (mwm : Z) (n : nat)
    (tx : list gtx) (prev : giota.Trytes) : prog (list gtx * option error) :=
  match n with
  | O => Ret (tx, None)
  | S i =>
      match tx !! i with
      | None => Panic
      | Some t =>
          let t := link tra (bool_decide (i = (length tx - 1)%nat)) prev t in
          ns ← now;
          let t := stamp ns t in
          '(nonce, err) ← pow (giota.TxTrytes t) mwm;
          let t := giota.setNonce nonce t in
          let tx := <[i := t]> tx in
          match err with
          | Some e => Ret (tx, Some e)
          | None => doPowFrom tra mwm i tx (giota.TxHash t)
          end
      end
  end.

Definition doPow (tra : Transaction P) (tx : list gtx) (mwm : Z)
    : prog (list gtx * option error) :=
  doPowFrom tra mwm (length tx) tx "".

(** The loop that builds [transactions], about to run with [i = n - 1];
    [None] is the return with [ErrBuildingTx]. *)
Fixpoint buildFrom (txTrytes : list giota.Trytes) (n : nat)
    (isValueTransaction : bool) (inputValue : Z) (transactions : list gtx)
    : prog (option (bool * Z * list gtx)) :=
  match n with
  | O => Ret (Some (isValueTransaction, inputValue, transactions))
  | S i =>
      match txTrytes !! i with
      | None => Panic
      | Some s =>
          match giota.NewTransaction s with
          | None => Ret None
          | Some t =>
              buildFrom txTrytes i
                (if bool_decide (giota.Value t > 0) then true else isValueTransaction)
                (if bool_decide (giota.Value t < 0)
                 then wrap64 (inputValue + giota.Value t) else inputValue)
                (transactions ++ [t])
          end
      end
  end.

(** [ServeHTTP] from the first line under the mutex to its return. *)
Definition attachToTangle (r : Request) (command : AttachToTangleCmd) : prog (Z * option error) :=
  printf (LogNewRequest (RemoteAddr r));;
  start ← now;
  let trunkTxHash := TrunkTxHash command in
  let branchTxHash := BranchTxHash command in
  let txTrytes := Trytes command in
  if decide (length txTrytes = 0%nat) then nextServeHTTP r
  else if bool_decide (Z.of_nat (length txTrytes) > maxTxInBundle) then
    Ret (StatusBadRequest,
         Some (Wrapf ErrTxBundleLimitExceeded (sprintf_max_allowed maxTxInBundle)))
  else
    built ← buildFrom txTrytes (length txTrytes) false 0 [];
    match built with
    | None => Ret (StatusBadRequest, Some ErrBuildingTx)
    | Some (isValueTransaction, inputValue, transactions) =>
        (* the line prints [int64(math.Abs(float64(inputValue)))] *)
        (if isValueTransaction then printf (LogInput inputValue) else Ret tt);;
        let bundle := mkBundle trunkTxHash branchTxHash transactions in
        printf (LogDoingPow (length transactions) isValueTransaction);;
        s ← now;
        (* the error [doPow] returns is not looked at *)
        '(attached, _) ← doPow bundle (Transactions bundle) 14;
        t ← now;
        printf (LogTookPow (wrap64 (t - s) `quot` 1000000) (length transactions));;
        let trytesRes := giota.TxTrytes <$> attached in
        t ← now;
        let res := mkRes trytesRes (wrap64 (t - start) `quot` 1000000) in
        '(resBytes, err) ← jsonMarshal res;
        match err with
        | Some _ => Ret (StatusInternalServerError, Some ErrBuildingRes)
        | None =>
            headerSet contentType contentTypeJSON;;
            headerSet "access-control-allow-origin" "*";;
            write resBytes;;
            Ret (StatusOK, None)
        end
    end.

Definition ServeHTTP (r : Request) : prog (Z * option error) :=
  if negb (String.eqb (Method r) MethodPost) then nextServeHTTP r
  else
    match Body r with
    | None => Ret (StatusBadRequest, Some ErrMissingBody)
    | Some body =>
        let '(contents, err) := ReadAll body in
        (* the call has drained [r.Body] *)
        let r := mkRequest (Method r) (Some (drained body)) (RemoteAddr r) in
        match err with
        | Some _ => Ret (StatusBadRequest, Some ErrMissingBody)
        | None =>
            let '(command, err) := jsonDecode contents in
            (* re-add body *)
            let r := setBody (NopCloser contents) r in
            match err with
            | Some _ => nextServeHTTP r
            | None =>
                match command with
                | None => Panic (* [command.Command] with [command == nil] *)
                | Some command =>
                    if negb (String.eqb (Command command) attachToTangleCommand)
                    then nextServeHTTP r
                    else Lock (deferUnlock (attachToTangle r command))
                end
            end
        end
    end.

(** *** What [doPow] leaves behind *)

(** [frame t t']: [t'] is [t] but for the six fields the attacher writes. *)
Definition frame (t t' : gtx) : Prop :=
  giota.Payload t' = giota.Payload t /\ giota.Value t' = giota.Value t.

(** One pass of the loop body of [doPow], at index [i] of [tx]. *)
Definition pass (tra : Transaction P) (prev : giota.Trytes) (tx : list gtx)
    (i : nat) (ns : Z) (nonce : giota.Trytes) (t : gtx) : gtx :=
  giota.setNonce nonce
    (stamp ns (link tra (bool_decide (i = (length tx - 1)%nat)) prev t)).

(** What the loop of [doPow], started at [i = n - 1] with [prev], leaves at
    an index [j] it went through: [t'], in the final slice [tx']. *)
Definition attachedAt (tra : Transaction P) (prev : giota.Trytes) (n : nat)
    (tx tx' : list gtx) (j : nat) (t' : gtx) : Prop :=
  (exists t, tx !! j = Some t /\ frame t t') /\
  giota.AttachmentTimestampLowerBound t' = "" /\
  giota.AttachmentTimestampUpperBound t' = maxTimestampTrytes /\
  if decide (j = (length tx - 1)%nat)
  then giota.TrunkTransaction t' = Trunk tra /\
       giota.BranchTransaction t' = Branch tra
  else giota.BranchTransaction t' = Trunk tra /\
       if decide (S j = n) then giota.TrunkTransaction t' = prev
       else exists u, tx' !! S j = Some u /\
                      giota.TrunkTransaction t' = giota.TxHash u.

(** The loop went through the indices [k <= j < n] and no other. *)
Definition stampedFrom (tra : Transaction P) (prev : giota.Trytes) (n k : nat)
    (tx tx' : list gtx) : Prop :=
  length tx' = length tx /\
  (forall j, (j < k \/ n <= j)%nat -> tx' !! j = tx !! j) /\
  (forall j t', (k <= j < n)%nat -> tx' !! j = Some t' ->
     attachedAt tra prev n tx tx' j t').

(** *** Requests and responses *)

(** [intercepted r contents command]: the handler reads [contents] from
    the body of the POST request [r] and decodes it to an [attachToTangle]
    [command]. *)
Definition intercepted (r : Request) (contents : bytes)
    (command : AttachToTangleCmd) : Prop :=
  Method r = MethodPost /\
  (exists body, Body r = Some body /\ ReadAll body = (contents, None)) /\
  jsonDecode contents = (Some command, None) /\
  Command command = attachToTangleCommand.

(** [nullCommand r]: the handler reads the body of the POST request [r]
    and decodes it without an error, to the JSON value [null]: the pointer
    [command] is nil. *)
Definition nullCommand (r : Request) : Prop :=
  Method r = MethodPost /\
  exists body contents,
    Body r = Some body /\ ReadAll body = (contents, None) /\
    jsonDecode contents = (None, None).

(** [decodes s t]: [giota.NewTransaction(s)] returns [t] and no error. *)
Definition decodes (s : giota.Trytes) (t : gtx) : Prop :=
  giota.NewTransaction s = Some t.

(** [attachedForm s out]: [out] is the trytes of the transaction decoded
    from [s], up to the fields the attacher writes. *)
Definition attachedForm (s out : giota.Trytes) : Prop :=
  exists t t', decodes s t /\ frame t t' /\
               out = giota.TxTrytes t'.

(** Entry [j] of [response] is the attached form of entry [j] of
    [request]. *)
Definition inOrder (request response : list giota.Trytes) : Prop :=
  length response = length request /\
  forall j s, request !! j = Some s ->
    exists out, response !! j = Some out /\ attachedForm s out.

(** The calls that end a request answered with [res]. *)
Definition responded (tr : list Event) (res : AttachToTangleRes) : Prop :=
  exists pre out,
    tr = pre ++ [EvMarshal res (out, None);
                 EvHeaderSet contentType contentTypeJSON;
                 EvHeaderSet "access-control-allow-origin" "*";
                 EvWrite out;
                 EvUnlock].

End Handler.

(** Two commands that differ at most in [minWeightMagnitude]. *)
Definition exceptMWM (c c' : AttachToTangleCmd) : Prop :=
  Command c = Command c' /\ TrunkTxHash c = TrunkTxHash c' /\
  BranchTxHash c = BranchTxHash c' /\ Trytes c = Trytes c'.

(** Two decoders that read the same from every body, but for the
    [minWeightMagnitude] of the command. *)
Definition sameExceptMWM (jsonDecode jsonDecode' : Decoder) : Prop :=
  forall b, option_Forall2 exceptMWM (jsonDecode b).1 (jsonDecode' b).1 /\
            (jsonDecode b).2 = (jsonDecode' b).2.

(** The calls of the proof-of-work function among [evs], in order: the
    trytes and the difficulty it was given and what it returned. *)
Definition powCalls (evs : list Event)
    : list (giota.Trytes * Z * (giota.Trytes * option error)) :=
  omap (fun e => match e with
                 | EvPow trytes mwm res => Some (trytes, mwm, res)
                 | _ => None
                 end) evs.

(** The calls [ServeHTTP] makes: the proof-of-work function is called with
    14. *)
Definition serveCall (e : Event) : Prop :=
  match e with
  | EvPow _ mwm _ => mwm = 14
  | _ => True
  end.

(** The calls it makes between [mu.Lock()] and the deferred [mu.Unlock()]. *)
Definition attachCall (e : Event) : Prop :=
  match e with
  | EvLock | EvUnlock => False
  | EvPow _ mwm _ => mwm = 14
  | _ => True
  end.

(** ** Goroutines *)

(** A goroutine serving a request stands before a node of its program, or
    inside the proof-of-work function, which returns later. *)
Inductive Goroutine (R : Type) : Type :=
| Running (p : prog R)
| Searching (trytes : giota.Trytes) (mwm : Z) (k : giota.Trytes * option error -> prog R).
Arguments Running {R}.
Arguments Searching {R}.

(** One step of one goroutine, with the state of the mutex [mu] before and
    after it.  [mu.Lock()] goes on only when the mutex is free; what the
    outside world returns is arbitrary. *)
Inductive gstep {R : Type} : bool -> Goroutine R -> bool -> Goroutine R -> Prop :=
| gstep_lock k :
    gstep false (Running (Lock k)) true (Running k)
| gstep_unlock k :
    gstep true (Running (Unlock k)) false (Running k)
| gstep_now mu k ns :
    gstep mu (Running (Now k)) mu (Running (k ns))
| gstep_pow_call mu t m k :
    gstep mu (Running (Pow t m k)) mu (Searching t m k)
| gstep_pow_return mu t m k res :
    gstep mu (Searching t m k) mu (Running (k res))
| gstep_next mu r k res :
    gstep mu (Running (NextServeHTTP r k)) mu (Running (k res))
| gstep_marshal mu res k out :
    gstep mu (Running (Marshal res k)) mu (Running (k out))
| gstep_printf mu l k :
    gstep mu (Running (Printf l k)) mu (Running k)
| gstep_header mu key v k :
    gstep mu (Running (HeaderSet key v k)) mu (Running k)
| gstep_write mu b k :
    gstep mu (Running (WriteBody b k)) mu (Running k).

(** The process: the mutex [mu] and the goroutines, one per request. *)
Record Pool (R : Type) : Type := mkPool {
  mu : bool;
  goroutines : list (Goroutine R)
}.
Arguments mkPool {R}.
Arguments mu {R}.
Arguments goroutines {R}.

(** The scheduler picks any goroutine that can take a step. *)
Inductive step {R : Type} : Pool R -> Pool R -> Prop :=
| step_goroutine m gs i g m' g' :
    gs !! i = Some g -> gstep m g m' g' ->
    step (mkPool m gs) (mkPool m' (<[i := g']> gs)).

(** The requests [rs] arrive; no goroutine has started yet. *)
Definition serve {R : Type} (handler : Request -> prog R) (rs : list Request) : Pool R :=
  mkPool false ((fun r => Running (handler r)) <$> rs).

(** [holds held g]: the goroutine [g] is where a bracketed program is that
    holds the mutex, or does not. *)
Definition holds {R : Type} (held : bool) (g : Goroutine R) : Prop :=
  match g with
  | Running p => bracketed held p
  | Searching _ _ k => held = true /\ forall res, bracketed true (k res)
  end.

(** The mutex is taken exactly when one goroutine, the [owner], holds it. *)
Definition gated {R : Type} (pool : Pool R) : Prop :=
  exists owner : option nat,
    mu pool = bool_decide (is_Some owner) /\
    (forall o, owner = Some o -> (o < length (goroutines pool))%nat) /\
    forall i g, goroutines pool !! i = Some g ->
      holds (bool_decide (owner = Some i)) g.

(** ** A small codec and world to run the handler on *)

Module Fixture.

(** Transactions with a one-letter payload; a [+] or a [-] after the letter
    makes the value 1 or -1.  The trytes of a transaction spell its fields
    out, and its hash is its trytes after a [#]. *)
Definition newTransaction (s : giota.Trytes) : option (giota.Transaction string) :=
  match s with
  | EmptyString => None
  | String c rest =>
      let v := if String.prefix "+" rest then 1
               else if String.prefix "-" rest then -1 else 0 in
      Some (giota.mkTransaction (String c "") v "" "" "" "" "" "")
  end.

Definition txTrytes (t : giota.Transaction string) : giota.Trytes :=
  giota.Payload t +:+
  ":" +:+ giota.TrunkTransaction t +:+
  ":" +:+ giota.BranchTransaction t +:+
  ":" +:+ giota.AttachmentTimestamp t +:+
  ":" +:+ giota.AttachmentTimestampLowerBound t +:+
  ":" +:+ giota.AttachmentTimestampUpperBound t +:+
  ":" +:+ giota.Nonce t.

Definition codec : giota.Codec string := {|
  giota.NewTransaction := newTransaction;
  giota.TxTrytes := txTrytes;
  giota.TxHash t := "#" +:+ txTrytes t;
  giota.TimestampTrytes z := pretty z
|}.

(** A world where the clock advances a millisecond per call, the
    proof-of-work function always returns [powResult], the next handler
    answers 200 and the encoder joins the trytes with commas. *)
Definition env (powResult : giota.Trytes * option error) : Env := {|
  clock n := 1000000 * Z.of_nat n;
  powFn _ _ _ := powResult;
  next _ _ := (StatusOK, None);
  marshal _ res :=
    (String.list_byte_of_string (String.concat "," (ResTrytes res)), None)
|}.

Definition found : giota.Trytes * option error := ("NONCE", None).
Definition failed : giota.Trytes * option error := ("", Some (ErrForeign "pow failed")).

Definition idle : World := mkWorld [] false.

Definition request (method : string) (body : bytes) : Request :=
  mkRequest method (Some (Reader body)) "127.0.0.1:4000".

Definition command (trytes : list giota.Trytes) : AttachToTangleCmd :=
  mkCmd attachToTangleCommand "TRUNK" "BRANCH" 9 trytes.

(** A decoder that reads [cmd] from every body. *)
Definition decodeAs (cmd : AttachToTangleCmd) : Decoder :=
  fun _ => (Some cmd, None).

(** Some requests: a POST and a GET, and the commands read from them,
    with two transactions, with none, and with 201. *)
Definition post : Request := request "POST" [].
Definition get : Request := request "GET" [].
Definition two : AttachToTangleCmd := command ["A"; "B"].
Definition none : AttachToTangleCmd := command [].
Definition many : AttachToTangleCmd := command (replicate 201 "A").

(** Two transactions that are not attached yet, and a bundle of them with
    the anchors [T0] and [B0]. *)
Definition a : giota.Transaction string := giota.mkTransaction "a" 0 "" "" "" "" "" "".
Definition b : giota.Transaction string := giota.mkTransaction "b" 0 "" "" "" "" "" "".
Definition bundle : Transaction string := mkBundle "T0" "B0" [a; b].

(** The handler over this codec. *)
Definition serveHTTP (cmd : AttachToTangleCmd) (maxTxInBundle : Z) (r : Request)
    : prog (Z * option error) :=
  ServeHTTP (H := codec) (decodeAs cmd) maxTxInBundle r.

End Fixture.

(** ** The calls of the handler, one by one *)

Section Protocol.

Context {P : Type} `{!giota.Codec P}.

(** The two calls of one pass of the loop of [doPow] over the transaction
    that was [t0] and has become [t']: the clock, then the proof-of-work
    function over the trytes of the transaction before the nonce is
    assigned. *)
Definition passCalls (mwm : Z) (t0 t' : giota.Transaction P) (ns : Z)
    (res : giota.Trytes * option error) : list Event :=
  [EvNow ns;
   EvPow (giota.TxTrytes (giota.setNonce (giota.Nonce t0) t')) mwm res].

(** [rounds mwm tx tx' n k evs err]: the calls [evs] of the loop of [doPow]
    from [i = n - 1] down to [i = k], over the slice that was [tx] and has
    become [tx'], and the error [err] it returns: it goes on after a pass
    whose proof of work succeeded and stops after one whose proof of work
    failed. *)
Inductive rounds (mwm : Z) (tx tx' : list (giota.Transaction P))
    : nat -> nat -> list Event -> option error -> Prop :=
| rounds_end :
    rounds mwm tx tx' 0 0 [] None
| rounds_fail i t0 t' ns nonce e :
    tx !! i = Some t0 -> tx' !! i = Some t' ->
    giota.AttachmentTimestamp t' = giota.TimestampTrytes (ns `quot` 1000000) ->
    giota.Nonce t' = nonce ->
    rounds mwm tx tx' (S i) i (passCalls mwm t0 t' ns (nonce, Some e)) (Some e)
| rounds_next i k t0 t' ns nonce evs err :
    tx !! i = Some t0 -> tx' !! i = Some t' ->
    giota.AttachmentTimestamp t' = giota.TimestampTrytes (ns `quot` 1000000) ->
    giota.Nonce t' = nonce ->
    rounds mwm tx tx' i k evs err ->
    rounds mwm tx tx' (S i) k (passCalls mwm t0 t' ns (nonce, None) ++ evs) err.

(** [isValueTransaction] after the loop over [transactions]. *)
Definition isValue (transactions : list (giota.Transaction P)) : bool :=
  existsb (fun t => bool_decide (giota.Value t > 0)) transactions.

(** The sum of the negative values, as an integer. *)
Definition negativeSum (transactions : list (giota.Transaction P)) : Z :=
  foldr (fun t sum => if bool_decide (giota.Value t < 0) then giota.Value t + sum else sum)
        0 transactions.

(** [served command start hd transactions tr' res]: the calls [tr'] and the
    result [res] of the handler after it has decoded [transactions], [hd]
    being the calls up to the clock reading [start]. *)
Definition served (command : AttachToTangleCmd) (start : Z) (hd : list Event)
    (transactions : list (giota.Transaction P)) (tr' : list Event)
    (res : Z * option error) : Prop :=
  exists s attached err k pows t1 t2 out,
    let bundle := mkBundle (TrunkTxHash command) (BranchTxHash command) transactions in
    let response :=
      mkRes (giota.TxTrytes <$> attached) (wrap64 (t2 - start) `quot` 1000000) in
    rounds 14 transactions attached (length transactions) k pows err /\
    stampedFrom bundle "" (length transactions) k transactions attached /\
    tr' = hd ++
          (if isValue transactions
           then [EvPrintf (LogInput (wrap64 (negativeSum transactions)))] else []) ++
          [EvPrintf (LogDoingPow (length transactions) (isValue transactions)); EvNow s] ++
          pows ++
          [EvNow t1;
           EvPrintf (LogTookPow (wrap64 (t1 - s) `quot` 1000000) (length transactions));
           EvNow t2;
           EvMarshal response out] ++
          match out.2 with
          | None => [EvHeaderSet contentType contentTypeJSON;
                     EvHeaderSet "access-control-allow-origin" "*";
                     EvWrite out.1]
          | Some _ => []
          end /\
    res = match out.2 with
          | None => (StatusOK, None)
          | Some _ => (StatusInternalServerError, Some ErrBuildingRes)
          end.

(** [answered maxTxInBundle r command tr tr' res]: the calls [tr'] and the
    result [res] of the handler under the mutex, started after the calls
    [tr], path by path. *)
Definition answered (maxTxInBundle : Z) (r : Request) (command : AttachToTangleCmd)
    (tr tr' : list Event) (res : Z * option error) : Prop :=
  exists start,
    let hd := tr ++ [EvPrintf (LogNewRequest (RemoteAddr r)); EvNow start] in
    let n := Z.of_nat (length (Trytes command)) in
    (Trytes command = [] /\ tr' = hd ++ [EvNext r res]) \/
    (Trytes command <> [] /\ n > maxTxInBundle /\ tr' = hd /\
     res = (StatusBadRequest,
            Some (Wrapf ErrTxBundleLimitExceeded (sprintf_max_allowed maxTxInBundle)))) \/
    (Trytes command <> [] /\ ~ n > maxTxInBundle /\
     mapM giota.NewTransaction (reverse (Trytes command)) = None /\ tr' = hd /\
     res = (StatusBadRequest, Some ErrBuildingTx)) \/
    (Trytes command <> [] /\ ~ n > maxTxInBundle /\
     exists transactions,
       mapM giota.NewTransaction (reverse (Trytes command)) = Some transactions /\
       served command start hd transactions tr' res).

End Protocol.

(** Neither a header nor the body of the response. *)
Definition silent (e : Event) : Prop :=
  match e with
  | EvHeaderSet _ _ | EvWrite _ => False
  | _ => True
  end.

(** [returned g]: the goroutine [g] has returned. *)
Definition returned {R : Type} (g : Goroutine R) : Prop :=
  exists res, g = Running (Ret res).

(** [panicked g]: the goroutine [g] has ended in a panic. *)
Definition panicked {R : Type} (g : Goroutine R) : Prop :=
  g = Running Panic.

(** The calls made from the world [w] to the world [w']. *)
Definition since (w w' : World) : list Event :=
  drop (length (trace w)) (trace w').

(** ** More requests to run the handler on *)

Module Cases.

(** A POST whose body fails when it is read. *)
Definition unreadable : Request :=
  mkRequest "POST" (Some (BrokenReader (ErrForeign "unexpected EOF"))) "127.0.0.1:4000".

(** Another command of the node. *)
Definition getNodeInfo : AttachToTangleCmd := mkCmd "getNodeInfo" "" "" 0 [].

(** A bundle whose second entry does not decode. *)
Definition malformed : AttachToTangleCmd := Fixture.command ["A"; ""].

(** A bundle that moves value: one output and two inputs. *)
Definition valued : list giota.Trytes := ["A+"; "B-"; "C-"].

(** A world where another request holds the mutex. *)
Definition busy : World := mkWorld [EvLock] true.

(** A POST with a body of two bytes. *)
Definition posted : Request := Fixture.request "POST" [Byte.x7b; Byte.x7d].

(** A decoder that reads the JSON value [null] from every body. *)
Definition decodeNull : Decoder := fun _ => (None, None).

End Cases.

(** ** The timestamp encoding *)

Module Trinary.

(** The encoding [giota.Int2Trits(v, giota.TimestampTrinarySize).Trytes()]
    of the attachment timestamp.  The two functions and the constant belong
    to the library, outside the repository; this is their algorithm:
    balanced ternary with the least significant trit first, three trits a
    tryte, over the alphabet [9A..Z]. *)
Definition TryteAlphabet : string := "9ABCDEFGHIJKLMNOPQRSTUVWXYZ".
Definition TimestampTrinarySize : nat := 27.

(** The loop of [Int2Trits] over a [v] that is not negative. *)
Fixpoint trits (size : nat) (v : Z) : list Z :=
  match size with
  | O => []
  | S n => ((v + 1) `mod` 3 - 1) :: trits n ((v + 1) `div` 3)
  end.

Definition Int2Trits (v : Z) (size : nat) : list Z :=
  if bool_decide (v < 0) then Z.opp <$> trits size (- v) else trits size v.

(** [Trits.Trytes()] *)
Fixpoint Trytes (t : list Z) : giota.Trytes :=
  match t with
  | t0 :: t1 :: t2 :: rest =>
      let j := t0 + t1 * 3 + t2 * 9 in
      let j := if bool_decide (j < 0) then j + 27 else j in
      String.substring (Z.to_nat j) 1 TryteAlphabet +:+ Trytes rest
  | _ => ""
  end.

Definition timestampTrytes (v : Z) : giota.Trytes :=
  Trytes (Int2Trits v TimestampTrinarySize).

(** The number a slice of trits stands for. *)
Fixpoint value (t : list Z) : Z :=
  match t with
  | [] => 0
  | t0 :: rest => t0 + 3 * value rest
  end.

(** The greatest number 27 trits stand for. *)
Definition maxTimestamp : Z := (3 ^ 27 - 1) `div` 2.

(** The codec of [Fixture] with this encoding of the timestamp. *)
Definition codec : giota.Codec string := {|
  giota.NewTransaction := Fixture.newTransaction;
  giota.TxTrytes := Fixture.txTrytes;
  giota.TxHash t := "#" +:+ Fixture.txTrytes t;
  giota.TimestampTrytes := timestampTrytes
|}.

End Trinary.

(** ** Reasoning about programs *)

Lemma post_mono {R : Type} (p : prog R) tr (Q Q' : list Event -> R -> Prop) :
  (forall tr' r, Q tr' r -> Q' tr' r) -> post p tr Q -> post p tr Q'.
Proof.
  intros HQ. revert tr.
  induction p; simpl; intros tr' Hp; eauto; try done.
Qed.

Lemma post_bind {A R : Type} (p : prog A) (f : A -> prog R) tr Q :
  post (bind p f) tr Q <-> post p tr (fun tr' a => post (f a) tr' Q).
Proof.
  revert tr. induction p; simpl; intros tr'; try done;
    split; intros Hp x; apply H, Hp.
Qed.

Lemma post_deferUnlock {R : Type} (p : prog R) tr Q :
  post (deferUnlock p) tr Q <-> post p tr (fun tr' r => Q (tr' ++ [EvUnlock]) r).
Proof.
  revert tr. induction p; simpl; intros tr'; try done;
    split; intros Hp x; apply H, Hp.
Qed.

(** A run is one of the behaviours [post] speaks of. *)
Lemma post_run {R : Type} env (p : prog R) w Q :
  post p (trace w) Q ->
  match run env p w with
  | (Returned r, w') => Q (trace w') r
  | (Panicked, _) => False
  | (Blocked, _) => True
  end.
Proof.
  revert w. induction p; simpl; intros w Hp; try done;
    try (by apply IHp); try (by apply H).
  destruct (locked w); [done|]. by apply IHp.
Qed.

Lemma emits_mono {R : Type} (ok ok' : Event -> Prop) (p : prog R) :
  (forall e, ok e -> ok' e) -> emits ok p -> emits ok' p.
Proof.
  intros Hok. induction p; simpl; try done;
    try (intros [? ?]; by auto); intros Hp x; destruct (Hp x); auto.
Qed.

Lemma emits_bind {A R : Type} ok (p : prog A) (f : A -> prog R) :
  emits ok p -> (forall a, emits ok (f a)) -> emits ok (bind p f).
Proof.
  intros Hp Hf. induction p; simpl in *; try done;
    try (destruct Hp; by auto); intros x; destruct (Hp x); auto.
Qed.

Lemma emits_deferUnlock {R : Type} (ok : Event -> Prop) (p : prog R) :
  ok EvUnlock -> emits ok p -> emits ok (deferUnlock p).
Proof.
  intros Hu. induction p; simpl; try done;
    try (intros [? ?]; by auto); intros Hp x; destruct (Hp x); auto.
Qed.

(** The calls of a run are calls of the program. *)
Lemma emits_run {R : Type} ok env (p : prog R) w :
  emits ok p ->
  exists evs, trace (run env p w).2 = trace w ++ evs /\ Forall ok evs.
Proof.
  assert (forall (q : prog R) w0 e, ok e ->
            (exists evs, trace (run env q (record e w0)).2 = trace (record e w0) ++ evs
                         /\ Forall ok evs) ->
            exists evs, trace (run env q (record e w0)).2 = trace w0 ++ evs
                        /\ Forall ok evs) as Hcons.
  { intros q w0 e He (evs & Hrw & Hevs). exists (e :: evs).
    split; [rewrite Hrw; simpl; by rewrite <- app_assoc | by constructor]. }
  revert w. induction p; simpl; intros w Hp;
    try (exists []; by rewrite app_nil_r).
  - destruct (locked w); [exists []; by rewrite app_nil_r|].
    destruct Hp as [He Hp].
    destruct (IHp (mkWorld (trace w ++ [EvLock]) true) Hp) as (evs & Hrw & Hevs).
    exists (EvLock :: evs).
    split; [rewrite Hrw; simpl; by rewrite <- app_assoc | by constructor].
  - destruct Hp as [He Hp].
    destruct (IHp (mkWorld (trace w ++ [EvUnlock]) false) Hp) as (evs & Hrw & Hevs).
    exists (EvUnlock :: evs).
    split; [rewrite Hrw; simpl; by rewrite <- app_assoc | by constructor].
  - destruct (Hp (clock env (length (trace w)))) as [He Hk]. by apply Hcons, H.
  - destruct (Hp (powFn env (length (trace w)) trytes mwm)) as [He Hk].
    by apply Hcons, H.
  - destruct (Hp (next env (length (trace w)) r)) as [He Hk]. by apply Hcons, H.
  - destruct (Hp (marshal env (length (trace w)) res)) as [He Hk]. by apply Hcons, H.
  - destruct Hp as [He Hp]. by apply Hcons, IHp.
  - destruct Hp as [He Hp]. by apply Hcons, IHp.
  - destruct Hp as [He Hp]. by apply Hcons, IHp.
Qed.

Lemma bracketed_deferUnlock {R : Type} (p : prog R) :
  lockfree p -> bracketed true (deferUnlock p).
Proof.
  unfold lockfree. induction p; simpl; try done;
    try (intros [[? ?] ?]; done); try (intros [_ ?]; by auto).
  - intros Hp x. destruct (Hp x). auto.
  - intros Hp. split; [done|]. intros x. destruct (Hp x). auto.
  - intros Hp x. destruct (Hp x). auto.
  - intros Hp x. destruct (Hp x). auto.
Qed.

(** A program that leaves the mutex alone and does not panic returns when
    run alone, whatever the state of the mutex. *)
Lemma lockfree_run {R : Type} env (p : prog R) w Q :
  lockfree p -> post p (trace w) Q ->
  exists r w', run env p w = (Returned r, w') /\ locked w' = locked w /\ Q (trace w') r.
Proof.
  unfold lockfree. revert w.
  induction p; simpl; intros w Hl Hp; try done.
  all: try match goal with Hl : (_ /\ _) /\ _ |- _ => by destruct Hl as [[? ?] _] end.
  - eauto.
  - destruct (Hl (clock env (length (trace w)))) as [_ Hk].
    by apply (H _ (record _ w)).
  - destruct (Hl (powFn env (length (trace w)) trytes mwm)) as [_ Hk].
    by apply (H _ (record _ w)).
  - destruct (Hl (next env (length (trace w)) r)) as [_ Hk].
    by apply (H _ (record _ w)).
  - destruct (Hl (marshal env (length (trace w)) res)) as [_ Hk].
    by apply (H _ (record _ w)).
  - destruct Hl as [_ Hl]. by apply (IHp (record _ w)).
  - destruct Hl as [_ Hl]. by apply (IHp (record _ w)).
  - destruct Hl as [_ Hl]. by apply (IHp (record _ w)).
Qed.

(** A bracketed program that does not panic returns when run alone, and
    leaves the mutex free. *)
Lemma bracketed_run {R : Type} env (p : prog R) w Q :
  bracketed (locked w) p -> post p (trace w) Q ->
  exists r w', run env p w = (Returned r, w') /\ locked w' = false /\ Q (trace w') r.
Proof.
  revert w. induction p; simpl; intros w Hb Hp; try done;
    try (by apply (IHp (record _ w))); try (by apply (H _ (record _ w))).
  - eauto.
  - destruct Hb as [-> Hb]. by apply (IHp (mkWorld _ true)).
  - destruct Hb as [_ Hb]. by apply (IHp (mkWorld _ false)).
  - destruct Hb as [_ Hb]. by apply (H _ (record _ w)).
Qed.

(** ** The loops of the handler *)

Section HandlerFacts.

Context {P : Type} `{!giota.Codec P}.
Variable jsonDecode : Decoder.
Variable maxTxInBundle : Z.

Abbreviation gtx := (giota.Transaction P).

Lemma pass_fields (tra : Transaction P) prev (tx : list gtx) i ns nonce t :
  let t' := pass tra prev tx i ns nonce t in
  frame t t' /\
  giota.AttachmentTimestampLowerBound t' = "" /\
  giota.AttachmentTimestampUpperBound t' = maxTimestampTrytes /\
  giota.AttachmentTimestamp t' = giota.TimestampTrytes (ns `quot` 1000000) /\
  giota.Nonce t' = nonce /\
  if decide (i = (length tx - 1)%nat)
  then giota.TrunkTransaction t' = Trunk tra /\
       giota.BranchTransaction t' = Branch tra
  else giota.BranchTransaction t' = Trunk tra /\
       giota.TrunkTransaction t' = prev.
Proof.
  unfold pass, link, frame. case_bool_decide; case_decide; done.
Qed.

Lemma stampedFrom_stop (tra : Transaction P) prev (tx : list gtx) i ns nonce t :
  tx !! i = Some t ->
  stampedFrom tra prev (S i) i tx (<[i := pass tra prev tx i ns nonce t]> tx).
Proof.
  intros Ht. split; [by rewrite length_insert|]. split.
  - intros j Hj. apply list_lookup_insert_ne. lia.
  - intros j t' Hj Ht'. assert (j = i) as -> by lia.
    rewrite list_lookup_insert_eq in Ht' by (by eapply lookup_lt_Some).
    injection Ht' as <-.
    destruct (pass_fields tra prev tx i ns nonce t) as (Hf & Hlo & Hup & _ & _ & Hl).
    split; [by exists t|]. split; [done|]. split; [done|].
    case_decide; [done|]. by rewrite decide_True.
Qed.

Lemma stampedFrom_step (tra : Transaction P) prev (tx : list gtx) i ns nonce t k tx' :
  tx !! i = Some t -> (k <= i)%nat ->
  let t1 := pass tra prev tx i ns nonce t in
  stampedFrom tra (giota.TxHash t1) i k (<[i := t1]> tx) tx' ->
  stampedFrom tra prev (S i) k tx tx'.
Proof.
  intros Ht Hk t1 (Hlen & Hout & Hin).
  assert (i < length tx)%nat as Hi by (by eapply lookup_lt_Some).
  rewrite length_insert in Hlen.
  assert (tx' !! i = Some t1) as Hi'.
  { rewrite Hout by lia. by apply list_lookup_insert_eq. }
  split; [done|]. split.
  - intros j Hj. rewrite Hout by lia. apply list_lookup_insert_ne. lia.
  - intros j t' Hj Ht'. destruct (decide (j = i)) as [->|Hne].
    + assert (t' = t1) as -> by congruence.
      destruct (pass_fields tra prev tx i ns nonce t) as (Hf & Hlo & Hup & _ & _ & Hl).
      split; [by exists t|]. split; [done|]. split; [done|].
      case_decide; [done|]. by rewrite decide_True.
    + destruct (Hin j t') as ((t0 & Ht0 & Hf) & Hlo & Hup & Hl); [lia|done|].
      rewrite list_lookup_insert_ne in Ht0 by done.
      rewrite length_insert in Hl.
      split; [by exists t0|]. split; [done|]. split; [done|].
      case_decide; [done|]. destruct Hl as [Hbr Htr]. split; [done|].
      rewrite decide_False by lia.
      case_decide as Hji; [|done]. exists t1. by rewrite <- Hji in Hi'.
Qed.

(** The invariant of the loop of [doPow]: it does not panic, and it has
    stamped the indices from some [k] up, all of them unless the
    proof-of-work function failed. *)
Lemma doPowFrom_post (tra : Transaction P) mwm n :
  forall (tx : list gtx) prev tr, (n <= length tx)%nat ->
  post (doPowFrom tra mwm n tx prev) tr (fun _ r =>
    exists k, (k <= n)%nat /\ (r.2 = None -> k = 0%nat) /\
              (is_Some r.2 -> (k < n)%nat) /\
              stampedFrom tra prev n k tx r.1).
Proof.
  induction n as [|i IH]; intros tx prev tr Hn; simpl.
  - exists 0%nat. split; [lia|]. split; [done|]. split; [by intros [? [=]]|].
    split; [done|]. split; [done|]. intros j t' Hj. lia.
  - destruct (tx !! i) as [t|] eqn:Ht; last (apply lookup_ge_None in Ht; lia).
    intros ns [nonce [e|]]; simpl.
    + exists i. split; [lia|]. split; [done|]. split; [intros _; lia|].
      by apply (stampedFrom_stop tra prev tx i ns nonce t).
    + eapply post_mono; [|apply IH; rewrite length_insert; lia].
      intros tr' [tx' err] (k & Hk & Hnone & Hsome & Hst); simpl in *.
      exists k. split; [lia|]. split; [done|].
      split; [intros He; specialize (Hsome He); lia|].
      by apply (stampedFrom_step tra prev tx i ns nonce t).
Qed.

Lemma stampedFrom_frame (tra : Transaction P) prev n k (tx tx' : list gtx) :
  stampedFrom tra prev n k tx tx' ->
  forall j t', tx' !! j = Some t' -> exists t, tx !! j = Some t /\ frame t t'.
Proof.
  intros (Hlen & Hout & Hin) j t' Ht'.
  destruct (decide (k <= j < n)%nat) as [Hj|Hj].
  - by destruct (Hin j t' Hj Ht') as (Hf & _).
  - exists t'. split; [|done]. rewrite <- Hout; [done|lia].
Qed.

Lemma emits_doPowFrom ok (tra : Transaction P) mwm n :
  (forall ns, ok (EvNow ns)) -> (forall t res, ok (EvPow t mwm res)) ->
  forall (tx : list gtx) prev, emits ok (doPowFrom tra mwm n tx prev).
Proof.
  intros Hnow Hpow. induction n as [|i IH]; intros tx prev; simpl; [done|].
  destruct (tx !! i); simpl; [|done].
  intros ns. split; [done|]. intros [nonce [e|]]; (split; [done|]); simpl; done.
Qed.

(** The loop that builds [transactions] makes no call and does not panic;
    it appends the transactions decoded from the trytes, last entry
    first. *)
Lemma buildFrom_post (txTrytes : list giota.Trytes) n :
  forall b v (acc : list gtx) tr, (n <= length txTrytes)%nat ->
  post (buildFrom txTrytes n b v acc) tr (fun tr' r =>
    tr' = tr /\
    forall b' v' transactions, r = Some (b', v', transactions) ->
      exists ds, transactions = acc ++ ds /\
                 Forall2 decodes (reverse (take n txTrytes)) ds).
Proof.
  induction n as [|i IH]; intros b v acc tr Hn; simpl.
  - split; [done|]. intros b' v' txs [= _ _ <-]. exists []. by rewrite app_nil_r.
  - destruct (txTrytes !! i) as [s|] eqn:Hs; last (apply lookup_ge_None in Hs; lia).
    destruct (giota.NewTransaction s) as [t|] eqn:Ht; simpl; [|done].
    eapply post_mono; [|apply IH; lia].
    intros tr' r [-> Hr]. split; [done|].
    intros b' v' txs ->. destruct (Hr _ _ _ eq_refl) as (ds & -> & Hds).
    exists (t :: ds). split; [by rewrite <- app_assoc|].
    erewrite take_S_r by done. rewrite reverse_snoc. by constructor.
Qed.

Lemma emits_buildFrom ok (txTrytes : list giota.Trytes) n :
  forall b v (acc : list gtx), emits ok (buildFrom txTrytes n b v acc).
Proof.
  induction n as [|i IH]; intros b v acc; simpl; [done|].
  destruct (txTrytes !! i); [|done]. destruct (giota.NewTransaction _); [|done].
  apply IH.
Qed.

(** *** [ServeHTTP] under the mutex *)

Lemma snoc4 {A : Type} (l : list A) a b c d :
  (((l ++ [a]) ++ [b]) ++ [c]) ++ [d] = l ++ [a; b; c; d].
Proof. by rewrite <- !app_assoc. Qed.

Lemma emits_attachToTangle r command : emits attachCall (attachToTangle maxTxInBundle r command).
Proof.
  unfold attachToTangle. simpl. split; [done|]. intros start. split; [done|].
  case_decide; [simpl; by intros|]. case_bool_decide; [done|].
  apply emits_bind; [apply emits_buildFrom|].
  intros [[[isValue inputValue] transactions]|]; [|done].
  assert (emits attachCall
    (Printf (LogDoingPow (length transactions) isValue)
       (s ← now;
        '(attached, _) ← doPow (mkBundle (TrunkTxHash command)
                                  (BranchTxHash command) transactions)
                           transactions 14;
        t ← now;
        printf (LogTookPow (wrap64 (t - s) `quot` 1000000) (length transactions));;
        t ← now;
        '(resBytes, err) ← jsonMarshal
           (mkRes (giota.TxTrytes <$> attached) (wrap64 (t - start) `quot` 1000000));
        match err with
        | Some _ => Ret (StatusInternalServerError, Some ErrBuildingRes)
        | None =>
            headerSet contentType contentTypeJSON;;
            headerSet "access-control-allow-origin" "*";;
            write resBytes;;
            Ret (StatusOK, None)
        end))) as Hrest.
  { simpl. split; [done|]. intros s. split; [done|].
    apply emits_bind; [by apply emits_doPowFrom|].
    intros [attached err]. simpl. intros t. split; [done|]. split; [done|].
    intros t'. split; [done|]. intros [resBytes [e|]]; simpl; done. }
  destruct isValue; simpl; [split; [done|]|]; exact Hrest.
Qed.

Lemma lockfree_attachToTangle r command : lockfree (attachToTangle maxTxInBundle r command).
Proof.
  eapply emits_mono; [|apply emits_attachToTangle]. by intros [].
Qed.

(** Under the mutex the handler does not panic.  When the list of trytes
    is not empty and it returns 200, it has answered, with the attached
    form of the entries of the request, last entry first. *)
Lemma attachToTangle_post r command tr :
  post (attachToTangle maxTxInBundle r command) tr (fun tr' res =>
    Trytes command <> [] -> res = (StatusOK, None) ->
    exists response pre out,
      tr' = pre ++ [EvMarshal response (out, None);
                    EvHeaderSet contentType contentTypeJSON;
                    EvHeaderSet "access-control-allow-origin" "*";
                    EvWrite out] /\
      inOrder (reverse (Trytes command)) (ResTrytes response)).
Proof.
  unfold attachToTangle. simpl. intros start.
  case_decide as Hlen.
  { simpl. intros res Hne. by destruct (Trytes command). }
  case_bool_decide; [simpl; by intros|].
  apply post_bind. eapply post_mono; [|by apply buildFrom_post].
  intros tr1 [[[isValue inputValue] transactions]|] [-> Hbuilt]; [|simpl; by intros].
  destruct (Hbuilt _ _ _ eq_refl) as (ds & Hds & Hdec). simpl in Hds. subst ds.
  rewrite firstn_all in Hdec.
  assert (forall tr2, post
    (s ← now;
     '(attached, _) ← doPow (mkBundle (TrunkTxHash command)
                               (BranchTxHash command) transactions)
                        transactions 14;
     t ← now;
     printf (LogTookPow (wrap64 (t - s) `quot` 1000000) (length transactions));;
     t ← now;
     '(resBytes, err) ← jsonMarshal
        (mkRes (giota.TxTrytes <$> attached) (wrap64 (t - start) `quot` 1000000));
     match err with
     | Some _ => Ret (StatusInternalServerError, Some ErrBuildingRes)
     | None =>
         headerSet contentType contentTypeJSON;;
         headerSet "access-control-allow-origin" "*";;
         write resBytes;;
         Ret (StatusOK, None)
     end) tr2 (fun tr' res =>
       Trytes command <> [] -> res = (StatusOK, None) ->
       exists response pre out,
         tr' = pre ++ [EvMarshal response (out, None);
                       EvHeaderSet contentType contentTypeJSON;
                       EvHeaderSet "access-control-allow-origin" "*";
                       EvWrite out] /\
         inOrder (reverse (Trytes command)) (ResTrytes response))) as Hrest.
  { intros tr2. simpl. intros s. apply post_bind.
    eapply post_mono; [|by apply doPowFrom_post].
    intros tr3 [attached err] (k & _ & _ & _ & Hst). simpl in Hst. simpl.
    intros t t' [resBytes [e|]]; simpl; [by intros|]. intros _ _.
    eexists _, _, _. split; [apply snoc4|].
    simpl. destruct Hst as (Hlen' & Hst').
    split.
    { rewrite length_fmap, Hlen'. symmetry. by eapply Forall2_length. }
    intros j s0 Hs0.
    destruct (Forall2_lookup_l _ _ _ _ _ Hdec Hs0) as (t0 & Ht0 & Hd).
    assert (is_Some (attached !! j)) as [t1 Ht1].
    { apply lookup_lt_is_Some. rewrite Hlen'. by eapply lookup_lt_Some. }
    exists (giota.TxTrytes t1). split; [by rewrite list_lookup_fmap, Ht1|].
    destruct (stampedFrom_frame _ _ _ _ _ _ (conj Hlen' Hst') j t1 Ht1)
      as (t2 & Ht2 & Hf).
    exists t0, t1. split; [done|]. split; [congruence|done]. }
  destruct isValue; simpl; apply Hrest.
Qed.

(** *** [ServeHTTP] *)

Lemma ServeHTTP_intercepted r contents command :
  intercepted jsonDecode r contents command ->
  ServeHTTP jsonDecode maxTxInBundle r =
  Lock (deferUnlock (attachToTangle maxTxInBundle (setBody (NopCloser contents) r) command)).
Proof.
  intros (Hm & (body & Hb & Hread) & Hdec & Hcmd).
  unfold ServeHTTP. rewrite Hb, Hread, Hdec, Hcmd. simpl.
  destruct (String.eqb_spec (Method r) MethodPost); done.
Qed.

Lemma bracketed_ServeHTTP r : bracketed false (ServeHTTP jsonDecode maxTxInBundle r).
Proof.
  unfold ServeHTTP.
  destruct (negb _); [done|]. destruct (Body r) as [body|]; [|done].
  destruct (ReadAll body) as [contents [e|]]; [done|].
  destruct (jsonDecode contents) as [[command|] [e|]]; try done.
  destruct (negb _); [done|]. split; [done|].
  apply bracketed_deferUnlock, lockfree_attachToTangle.
Qed.

Lemma emits_ServeHTTP r : emits serveCall (ServeHTTP jsonDecode maxTxInBundle r).
Proof.
  unfold ServeHTTP.
  destruct (negb _); [done|]. destruct (Body r) as [body|]; [|done].
  destruct (ReadAll body) as [contents [e|]]; [done|].
  destruct (jsonDecode contents) as [[command|] [e|]]; try done.
  destruct (negb _); [done|]. split; [done|].
  apply emits_deferUnlock; [done|].
  eapply emits_mono; [|apply emits_attachToTangle]. by intros [].
Qed.

(** The handler panics only on a body that decodes to [null]. *)
Lemma post_ServeHTTP r tr :
  ~ nullCommand jsonDecode r ->
  post (ServeHTTP jsonDecode maxTxInBundle r) tr (fun _ _ => True).
Proof.
  unfold ServeHTTP, nullCommand. intros Hnull.
  destruct (negb (String.eqb (Method r) MethodPost)) eqn:Hm; [done|].
  apply negb_false_iff, String.eqb_eq in Hm.
  destruct (Body r) as [body|]; [|done].
  destruct (ReadAll body) as [contents [e|]] eqn:Hread; [done|].
  destruct (jsonDecode contents) as [[command|] [e|]] eqn:Hdec; try done.
  2:{ destruct Hnull. split; [done|]. by exists body, contents. }
  destruct (negb _); [done|].
  apply (proj2 (post_deferUnlock (attachToTangle maxTxInBundle _ command) (tr ++ [EvLock]) _)).
  eapply post_mono; [|apply attachToTangle_post]. done.
Qed.

End HandlerFacts.

(** ** Goroutines behind the mutex *)

Lemma gated_serve {R : Type} (handler : Request -> prog R) rs :
  (forall r, bracketed false (handler r)) -> gated (serve handler rs).
Proof.
  intros Hh. exists None. split; [done|]. split; [done|].
  intros i g Hg. simpl in Hg. rewrite list_lookup_fmap in Hg.
  destruct (rs !! i) as [r|]; simplify_eq/=. apply Hh.
Qed.

Lemma gated_step {R : Type} (pool pool' : Pool R) :
  gated pool -> step pool pool' -> gated pool'.
Proof.
  intros (owner & Hmu & Hown & Hgs) Hstep.
  destruct Hstep as [m gs i g m' g' Hi Hg]. simpl in *.
  assert (i < length gs)%nat as Hlt by (by eapply lookup_lt_Some).
  pose proof (Hgs i g Hi) as Hholds.
  assert (forall (h : bool) o, holds h g' ->
            (forall j, j <> i -> bool_decide (o = Some j) = bool_decide (owner = Some j)) ->
            bool_decide (o = Some i) = h ->
            forall j g0, <[i := g']> gs !! j = Some g0 ->
              holds (bool_decide (o = Some j)) g0) as Hkeep.
  { intros h o Hg' Hother Hself j g0 Hj.
    destruct (decide (j = i)) as [->|Hne].
    - rewrite list_lookup_insert_eq in Hj by done. injection Hj as <-. by rewrite Hself.
    - rewrite list_lookup_insert_ne in Hj by done. rewrite Hother by done. by apply Hgs. }
  destruct Hg; simpl in Hholds.
  - (* mu.Lock() *)
    destruct owner as [o|]; [by rewrite bool_decide_true in Hmu|].
    exists (Some i). split; [done|]. split.
    { intros o [= <-]. simpl. by rewrite length_insert. }
    apply (Hkeep true); [by destruct Hholds| |by rewrite bool_decide_true].
    intros j Hne. rewrite !bool_decide_false; [done|done|congruence].
  - (* mu.Unlock() *)
    destruct Hholds as [Hh Hk]. apply bool_decide_eq_true in Hh. subst owner.
    exists None. split; [done|]. split; [done|].
    apply (Hkeep false); [done| |done].
    intros j Hne. rewrite !bool_decide_false; [done|congruence|done].
  - exists owner. split; [done|]. split; [simpl; by rewrite length_insert|].
    apply (Hkeep (bool_decide (owner = Some i))); [simpl; first [exact Hholds | apply Hholds]|done|done].
  - exists owner. split; [done|]. split; [simpl; by rewrite length_insert|].
    apply (Hkeep (bool_decide (owner = Some i))); [|done|done].
    destruct Hholds as [Hh Hk]. simpl. rewrite Hh in *. done.
  - exists owner. split; [done|]. split; [simpl; by rewrite length_insert|].
    apply (Hkeep (bool_decide (owner = Some i))); [|done|done].
    destruct Hholds as [Hh Hk]. simpl. rewrite Hh. apply Hk.
  - exists owner. split; [done|]. split; [simpl; by rewrite length_insert|].
    apply (Hkeep (bool_decide (owner = Some i))); [simpl; first [exact Hholds | apply Hholds]|done|done].
  - exists owner. split; [done|]. split; [simpl; by rewrite length_insert|].
    apply (Hkeep (bool_decide (owner = Some i))); [simpl; first [exact Hholds | apply Hholds]|done|done].
  - exists owner. split; [done|]. split; [simpl; by rewrite length_insert|].
    apply (Hkeep (bool_decide (owner = Some i))); [simpl; first [exact Hholds | apply Hholds]|done|done].
  - exists owner. split; [done|]. split; [simpl; by rewrite length_insert|].
    apply (Hkeep (bool_decide (owner = Some i))); [simpl; first [exact Hholds | apply Hholds]|done|done].
  - exists owner. split; [done|]. split; [simpl; by rewrite length_insert|].
    apply (Hkeep (bool_decide (owner = Some i))); [simpl; first [exact Hholds | apply Hholds]|done|done].
Qed.

Lemma gated_rtc {R : Type} (pool pool' : Pool R) :
  gated pool -> rtc step pool pool' -> gated pool'.
Proof. intros Hg Hsteps. induction Hsteps; eauto using gated_step. Qed.

(** Behind the gate, two goroutines are never both inside the proof-of-work
    function, and the mutex is free once every goroutine has returned. *)
Lemma gated_exclusive {R : Type} (pool : Pool R) :
  gated pool ->
  (forall i j ti mi ki tj mj kj,
     goroutines pool !! i = Some (Searching ti mi ki) ->
     goroutines pool !! j = Some (Searching tj mj kj) -> i = j) /\
  ((forall i g, goroutines pool !! i = Some g -> exists res, g = Running (Ret res)) ->
   mu pool = false).
Proof.
  intros (owner & Hmu & Hown & Hgs). split.
  - intros i j ti mi ki tj mj kj Hi Hj.
    destruct (Hgs _ _ Hi) as [Hoi _]. destruct (Hgs _ _ Hj) as [Hoj _].
    apply bool_decide_eq_true in Hoi, Hoj. congruence.
  - intros Hret. destruct owner as [o|]; [|done].
    destruct (lookup_lt_is_Some_2 (goroutines pool) o (Hown o eq_refl)) as [g Hg].
    destruct (Hret _ _ Hg) as [res ->]. specialize (Hgs _ _ Hg).
    by rewrite bool_decide_true in Hgs.
Qed.

(** ** The attacher *)

Section Attacher.

Context {P : Type} `{!giota.Codec P}.

Lemma lockfree_doPow (tra : Transaction P) tx mwm : lockfree (doPow tra tx mwm).
Proof. by apply emits_doPowFrom. Qed.

(** [doPow] returns, whatever the clock and the proof-of-work function do,
    and what it returns is what the loop invariant says. *)
Lemma doPow_returns (tra : Transaction P) tx mwm env w :
  exists tx' err w' k,
    run env (doPow tra tx mwm) w = (Returned (tx', err), w') /\
    locked w' = locked w /\
    (err = None -> k = 0%nat) /\
    (is_Some err -> (k < length tx)%nat) /\
    stampedFrom tra "" (length tx) k tx tx'.
Proof.
  destruct (lockfree_run env (doPow tra tx mwm) w _ (lockfree_doPow tra tx mwm)
              (doPowFrom_post tra mwm (length tx) tx "" (trace w) (le_n _)))
    as ([tx' err] & w' & Hrun & Hl & k & _ & Hk & Hs & Hst).
  by exists tx', err, w', k.
Qed.

(** C1. After [doPow] has returned without an error, the newest transaction
    (the last of the slice) refers to the two anchors, and every other one
    has the hash of its successor, as [doPow] left it, as trunk and the
    trunk anchor as branch. *)
Theorem doPow_links (tra : Transaction P) tx mwm env w tx' w' :
  run env (doPow tra tx mwm) w = (Returned (tx', None), w') ->
  length tx' = length tx /\
  forall i t', tx' !! i = Some t' ->
    if decide (i = (length tx - 1)%nat)
    then giota.TrunkTransaction t' = Trunk tra /\
         giota.BranchTransaction t' = Branch tra
    else giota.BranchTransaction t' = Trunk tra /\
         exists u, tx' !! S i = Some u /\
                   giota.TrunkTransaction t' = giota.TxHash u.
Proof.
  intros Hrun.
  destruct (doPow_returns tra tx mwm env w)
    as (tx1 & err & w1 & k & Hrun' & _ & Hk & _ & Hlen & _ & Hin).
  rewrite Hrun in Hrun'. injection Hrun' as <- <- <-.
  rewrite (Hk eq_refl) in Hin. split; [done|].
  intros i t' Hi.
  assert (i < length tx)%nat as Hlt by (rewrite <- Hlen; by eapply lookup_lt_Some).
  destruct (Hin i t') as (_ & _ & _ & Hl); [lia|done|].
  case_decide; [done|]. destruct Hl as [Hbr Htr]. split; [done|].
  by rewrite decide_False in Htr by lia.
Qed.

(** When the proof-of-work function finds a nonce every time, [doPow]
    returns without an error. *)
Lemma doPowFrom_found (tra : Transaction P) mwm env n :
  (forall k t m, (powFn env k t m).2 = None) ->
  forall tx prev w, (n <= length tx)%nat ->
  exists tx' w', run env (doPowFrom tra mwm n tx prev) w = (Returned (tx', None), w').
Proof.
  intros Hfound. induction n as [|i IH]; intros tx prev w Hn; simpl; [by eauto|].
  destruct (tx !! i) as [t|] eqn:Ht; last (apply lookup_ge_None in Ht; lia).
  simpl.
  match goal with |- context [powFn env ?k ?t ?m] =>
    pose proof (Hfound k t m) as Hf; destruct (powFn env k t m) as [nonce [e|]] end;
    [simpl in Hf; done|].
  simpl. apply IH. rewrite length_insert. lia.
Qed.

(** C8. [doPow] leaves the number and the order of the transactions, and
    the value and the payload of each, as they were; this holds when it
    returns an error too. *)
Theorem doPow_frame (tra : Transaction P) tx mwm env w :
  exists tx' err w',
    run env (doPow tra tx mwm) w = (Returned (tx', err), w') /\
    length tx' = length tx /\
    forall i t', tx' !! i = Some t' ->
      exists t, tx !! i = Some t /\
                giota.Payload t' = giota.Payload t /\
                giota.Value t' = giota.Value t.
Proof.
  destruct (doPow_returns tra tx mwm env w)
    as (tx' & err & w' & k & Hrun & _ & _ & _ & Hst).
  exists tx', err, w'. split; [done|]. split; [by destruct Hst|].
  intros i t' Hi. by destruct (stampedFrom_frame _ _ _ _ _ _ Hst i t' Hi) as (t & ? & ? & ?); eauto.
Qed.

End Attacher.

(** ** The handler *)

Section Serving.

Context {P : Type} `{!giota.Codec P}.
Variable jsonDecode : Decoder.
Variable maxTxInBundle : Z.

(** Run alone with the mutex free, the handler returns, and leaves the
    mutex free, unless the body decodes to [null]. *)
Lemma ServeHTTP_returns r env w :
  ~ nullCommand jsonDecode r ->
  locked w = false ->
  exists res w', run env (ServeHTTP jsonDecode maxTxInBundle r) w = (Returned res, w') /\
                 locked w' = false.
Proof.
  intros Hnull Hw.
  destruct (bracketed_run env (ServeHTTP jsonDecode maxTxInBundle r) w (fun _ _ => True))
    as (res & w' & Hrun & Hl & _).
  - rewrite Hw. apply bracketed_ServeHTTP.
  - by apply post_ServeHTTP.
  - by exists res, w'.
Qed.

(** C3, as the code has it. A request that is answered with 200 gets the
    attached forms of its trytes in reverse: entry [j] of the response is
    the attached form of entry [N - 1 - j] of the request. *)
Theorem response_reversed r contents command env w w' :
  intercepted jsonDecode r contents command ->
  Trytes command <> [] ->
  run env (ServeHTTP jsonDecode maxTxInBundle r) w = (Returned (StatusOK, None), w') ->
  exists response,
    responded (trace w') response /\
    inOrder (reverse (Trytes command)) (ResTrytes response).
Proof.
  intros Hint Hne Hrun.
  rewrite (ServeHTTP_intercepted _ _ _ _ _ Hint) in Hrun.
  pose proof (post_run env
    (Lock (deferUnlock (attachToTangle maxTxInBundle (setBody (NopCloser contents) r) command)))
    w (fun tr' res => res = (StatusOK, None) ->
         exists response, responded tr' response /\
           inOrder (reverse (Trytes command)) (ResTrytes response))) as Hpost.
  rewrite Hrun in Hpost. apply Hpost; [|done].
  apply (proj2 (post_deferUnlock (attachToTangle maxTxInBundle _ command) (trace w ++ [EvLock]) _)).
  eapply post_mono; [|apply attachToTangle_post].
  intros tr' res Hres Hok. destruct (Hres Hne Hok) as (response & pre & out & -> & Hord).
  exists response. split; [|done]. exists pre, out. by rewrite <- app_assoc.
Qed.

(** C5, as the code has it. A bundle that is not empty and has more
    entries than [maxTxInBundle] is refused: the handler returns 400 and
    the limit error, whose message carries the limit, having called
    neither the next handler nor the proof-of-work function. *)
Theorem bundle_limit r contents command env w :
  intercepted jsonDecode r contents command ->
  Trytes command <> [] ->
  Z.of_nat (length (Trytes command)) > maxTxInBundle ->
  locked w = false ->
  exists ns e,
    run env (ServeHTTP jsonDecode maxTxInBundle r) w =
      (Returned (StatusBadRequest, Some e),
       mkWorld (trace w ++ [EvLock; EvPrintf (LogNewRequest (RemoteAddr r));
                            EvNow ns; EvUnlock]) false) /\
    e = Wrapf ErrTxBundleLimitExceeded (sprintf_max_allowed maxTxInBundle) /\
    Error e = "max allowed is " +:+ pretty maxTxInBundle +:+
              ": the number of transactions exceeds the limit".
Proof.
  intros Hint Hne Hgt Hw.
  rewrite (ServeHTTP_intercepted _ _ _ _ _ Hint).
  unfold attachToTangle. simpl. rewrite Hw. simpl.
  rewrite decide_False by (by destruct (Trytes command)).
  rewrite bool_decide_true by done. simpl.
  eexists _, _. split; [|done]. by rewrite <- !app_assoc.
Qed.

(** C6. An [attachToTangle] request with no trytes goes to the next
    handler, under the mutex; what the next handler returns is returned,
    and the proof-of-work function is not called.  The handler has read the
    body of the request to its end, so that the stream yields nothing more;
    the request it forwards has a body that yields the bytes read once
    again, and is not the stream the read has left. *)
Theorem empty_bundle_forwarded r contents command env w :
  intercepted jsonDecode r contents command ->
  Trytes command = [] ->
  locked w = false ->
  let r' := setBody (NopCloser contents) r in
  exists body ns res,
    run env (ServeHTTP jsonDecode maxTxInBundle r) w =
      (Returned res,
       mkWorld (trace w ++ [EvLock; EvPrintf (LogNewRequest (RemoteAddr r));
                            EvNow ns; EvNext r' res; EvUnlock]) false) /\
    Body r = Some body /\ ReadAll body = (contents, None) /\
    ReadAll (drained body) = ([], None) /\
    (exists body', Body r' = Some body' /\ ReadAll body' = (contents, None)) /\
    (contents <> [] -> Body r' <> Some (drained body)) /\
    Method r' = Method r /\ RemoteAddr r' = RemoteAddr r.
Proof.
  intros Hint Hnil Hw r'.
  rewrite (ServeHTTP_intercepted _ _ _ _ _ Hint).
  destruct Hint as (_ & (body & Hb & Hread) & _).
  unfold attachToTangle. simpl. rewrite Hw. simpl. rewrite Hnil. simpl.
  exists body. eexists _, _. split; [by rewrite <- !app_assoc|].
  split; [done|]. split; [done|].
  destruct body as [data|e]; [|done]. injection Hread as <-.
  split; [done|]. split; [by exists (Reader data)|].
  split; [|done]. intros Hne [= ->]. done.
Qed.

(** C10. A request whose method is not POST goes to the next handler as it
    came: this is the only call, so the body is not read and the mutex is
    not touched. *)
Theorem other_methods_forwarded r :
  Method r <> MethodPost ->
  ServeHTTP jsonDecode maxTxInBundle r = NextServeHTTP r Ret /\
  forall env w,
    run env (ServeHTTP jsonDecode maxTxInBundle r) w =
      (Returned (next env (length (trace w)) r),
       mkWorld (trace w ++ [EvNext r (next env (length (trace w)) r)]) (locked w)).
Proof.
  intros Hm.
  assert (ServeHTTP jsonDecode maxTxInBundle r = NextServeHTTP r Ret) as ->; [|done].
  unfold ServeHTTP. destruct (String.eqb_spec (Method r) MethodPost); done.
Qed.

(** C7. However the goroutines of any number of requests are scheduled,
    no two of them are inside the proof-of-work function at once, and the
    mutex is free once all of them have returned; for the handler of every
    request takes the mutex before it calls the proof-of-work function and
    gives it back before it returns, whatever it returns. *)
Theorem one_bundle_at_a_time rs pool :
  rtc step (serve (ServeHTTP jsonDecode maxTxInBundle) rs) pool ->
  (forall i j ti mi ki tj mj kj,
     goroutines pool !! i = Some (Searching ti mi ki) ->
     goroutines pool !! j = Some (Searching tj mj kj) -> i = j) /\
  ((forall i g, goroutines pool !! i = Some g -> exists res, g = Running (Ret res)) ->
   mu pool = false) /\
  (forall r, bracketed false (ServeHTTP jsonDecode maxTxInBundle r)).
Proof.
  intros Hsteps.
  destruct (gated_exclusive pool) as [Hex Hfree].
  { eapply gated_rtc; [|done]. apply gated_serve, bracketed_ServeHTTP. }
  split; [done|]. split; [done|]. apply bracketed_ServeHTTP.
Qed.

End Serving.

(** ** The handler at work *)

(** C1 at work: two transactions and the anchors [T0] and [B0]. *)
Lemma doPow_links_witness :
  exists (tx' : list (giota.Transaction string)) w',
    run (Fixture.env Fixture.found)
        (doPow (H := Fixture.codec) Fixture.bundle (Transactions Fixture.bundle) 14)
        Fixture.idle
      = (Returned (tx', None), w') /\
    (length tx' = length (Transactions Fixture.bundle) /\
     forall i t', tx' !! i = Some t' ->
       if decide (i = (length (Transactions Fixture.bundle) - 1)%nat)
       then giota.TrunkTransaction t' = Trunk Fixture.bundle /\
            giota.BranchTransaction t' = Branch Fixture.bundle
       else giota.BranchTransaction t' = Trunk Fixture.bundle /\
            exists u, tx' !! S i = Some u /\
                      giota.TrunkTransaction t' = giota.TxHash (Codec := Fixture.codec) u).
Proof.
  eexists _, _. split; [vm_compute; reflexivity|].
  eapply (doPow_links (H := Fixture.codec) Fixture.bundle (Transactions Fixture.bundle) 14
            (Fixture.env Fixture.found) Fixture.idle).
  vm_compute. reflexivity.
Defined.

(** C2 fails on the code: the proof-of-work function fails on the first
    transaction it is given, and the handler answers 200 with the bundle as
    [doPow] left it, [B] untouched and [A] without a nonce. *)
Theorem pow_error_answered :
  exists w' pre out,
    run (Fixture.env Fixture.failed) (Fixture.serveHTTP Fixture.two 200 Fixture.post)
        Fixture.idle
      = (Returned (StatusOK, None), w') /\
    EvPow "A:TRUNK:BRANCH:5::L99999999:" 14 Fixture.failed ∈ trace w' /\
    trace w' = pre ++ [EvMarshal (mkRes ["B::::::"; "A:TRUNK:BRANCH:5::L99999999:"] 7)
                         (out, None);
                       EvHeaderSet contentType contentTypeJSON;
                       EvHeaderSet "access-control-allow-origin" "*";
                       EvWrite out;
                       EvUnlock].
Proof.
  pose (w' := (run (Fixture.env Fixture.failed)
                 (Fixture.serveHTTP Fixture.two 200 Fixture.post) Fixture.idle).2).
  exists w', (take 10 (trace w')). eexists.
  split; [vm_compute; reflexivity|]. split.
  - by apply (list_elem_of_lookup_2 _ 6%nat).
  - unfold w'. simpl. reflexivity.
Qed.

(** C3 at work: the request [A; B] is answered with the attached [B], then
    the attached [A]. *)
Lemma response_reversed_witness :
  exists w',
    (intercepted (Fixture.decodeAs Fixture.two) Fixture.post [] Fixture.two /\
     Trytes Fixture.two <> [] /\
     run (Fixture.env Fixture.found) (Fixture.serveHTTP Fixture.two 200 Fixture.post)
         Fixture.idle
       = (Returned (StatusOK, None), w')) /\
    exists response,
      responded (trace w') response /\
      inOrder (H := Fixture.codec) (reverse (Trytes Fixture.two)) (ResTrytes response).
Proof.
  eexists.
  assert (intercepted (Fixture.decodeAs Fixture.two) Fixture.post [] Fixture.two) as Hint.
  { split; [done|]. split; [by exists (Reader [])|done]. }
  split; [split; [done|]; split; [done|]; vm_compute; reflexivity|].
  eapply (response_reversed (H := Fixture.codec) (Fixture.decodeAs Fixture.two) 200
            Fixture.post [] Fixture.two (Fixture.env Fixture.found) Fixture.idle);
    [done|done|].
  vm_compute. reflexivity.
Defined.

(** C3 as the spec has it fails: in the answer to the request [A; B], the
    first entry is not an attached form of [A]. *)
Lemma response_order_counterexample :
  intercepted (Fixture.decodeAs Fixture.two) Fixture.post [] Fixture.two /\
  Trytes Fixture.two <> [] /\
  exists w' response,
    run (Fixture.env Fixture.found) (Fixture.serveHTTP Fixture.two 200 Fixture.post)
        Fixture.idle
      = (Returned (StatusOK, None), w') /\
    responded (trace w') response /\
    ~ inOrder (H := Fixture.codec) (Trytes Fixture.two) (ResTrytes response).
Proof.
  split; [split; [done|]; split; [by exists (Reader [])|done]|].
  split; [done|].
  eexists _, _. split; [vm_compute; reflexivity|]. split.
  - match goal with |- responded ?tr _ => exists (take 12 tr) end.
    eexists. simpl. reflexivity.
  - intros [_ Hall].
    destruct (Hall 0%nat "A" eq_refl) as (out & Hout & t & t' & Hdec & [Hpay _] & ->).
    injection Hdec as <-. simpl in Hpay.
    unfold giota.TxTrytes, Fixture.codec, Fixture.txTrytes in Hout.
    rewrite Hpay in Hout. simpl in Hout. discriminate Hout.
Qed.

(** C5 at work: 201 transactions where 200 are allowed. *)
Lemma bundle_limit_witness :
  (intercepted (Fixture.decodeAs Fixture.many) Fixture.post [] Fixture.many /\
   Trytes Fixture.many <> [] /\
   Z.of_nat (length (Trytes Fixture.many)) > 200 /\
   locked Fixture.idle = false) /\
  exists ns e,
    run (Fixture.env Fixture.found) (Fixture.serveHTTP Fixture.many 200 Fixture.post)
        Fixture.idle =
      (Returned (StatusBadRequest, Some e),
       mkWorld (trace Fixture.idle ++
                  [EvLock; EvPrintf (LogNewRequest (RemoteAddr Fixture.post));
                   EvNow ns; EvUnlock]) false) /\
    e = Wrapf ErrTxBundleLimitExceeded (sprintf_max_allowed 200) /\
    Error e = "max allowed is 200: the number of transactions exceeds the limit".
Proof.
  assert (intercepted (Fixture.decodeAs Fixture.many) Fixture.post [] Fixture.many) as Hint.
  { split; [done|]. split; [by exists (Reader [])|done]. }
  split; [split; [done|]; split; [done|]; split; [by vm_compute|done]|].
  apply (bundle_limit (H := Fixture.codec) (Fixture.decodeAs Fixture.many) 200
           Fixture.post [] Fixture.many (Fixture.env Fixture.found) Fixture.idle);
    [done|done|by vm_compute|done].
Defined.

(** C5 as the spec has it fails: with the limit -1, the empty list has more
    entries than the limit, and the request goes to the next handler, whose
    answer is returned. *)
Lemma bundle_limit_counterexample :
  intercepted (Fixture.decodeAs Fixture.none) Fixture.post [] Fixture.none /\
  Z.of_nat (length (Trytes Fixture.none)) > -1 /\
  locked Fixture.idle = false /\
  exists w',
    run (Fixture.env Fixture.found) (Fixture.serveHTTP Fixture.none (-1) Fixture.post)
        Fixture.idle
      = (Returned (StatusOK, None), w') /\
    EvNext Fixture.post (StatusOK, None) ∈ trace w'.
Proof.
  split; [split; [done|]; split; [by exists (Reader [])|done]|].
  split; [by vm_compute|]. split; [done|].
  eexists. split; [vm_compute; reflexivity|].
  by apply (list_elem_of_lookup_2 _ 3%nat).
Qed.

(** C6 at work: no trytes, in a body of two bytes. *)
Lemma empty_bundle_forwarded_witness :
  (intercepted (Fixture.decodeAs Fixture.none) Cases.posted [Byte.x7b; Byte.x7d]
     Fixture.none /\
   Trytes Fixture.none = [] /\
   locked Fixture.idle = false) /\
  exists body ns res,
    run (Fixture.env Fixture.found) (Fixture.serveHTTP Fixture.none 200 Cases.posted)
        Fixture.idle =
      (Returned res,
       mkWorld (trace Fixture.idle ++
                  [EvLock; EvPrintf (LogNewRequest (RemoteAddr Cases.posted));
                   EvNow ns;
                   EvNext (setBody (NopCloser [Byte.x7b; Byte.x7d]) Cases.posted) res;
                   EvUnlock]) false) /\
    Body Cases.posted = Some body /\ ReadAll body = ([Byte.x7b; Byte.x7d], None) /\
    ReadAll (drained body) = ([], None) /\
    (exists body', Body (setBody (NopCloser [Byte.x7b; Byte.x7d]) Cases.posted) = Some body' /\
                   ReadAll body' = ([Byte.x7b; Byte.x7d], None)) /\
    ([Byte.x7b; Byte.x7d] <> [] ->
     Body (setBody (NopCloser [Byte.x7b; Byte.x7d]) Cases.posted) <> Some (drained body)) /\
    Method (setBody (NopCloser [Byte.x7b; Byte.x7d]) Cases.posted) = Method Cases.posted /\
    RemoteAddr (setBody (NopCloser [Byte.x7b; Byte.x7d]) Cases.posted) =
      RemoteAddr Cases.posted.
Proof.
  assert (intercepted (Fixture.decodeAs Fixture.none) Cases.posted [Byte.x7b; Byte.x7d]
            Fixture.none) as Hint.
  { split; [done|]. split; [by exists (Reader [Byte.x7b; Byte.x7d])|done]. }
  split; [done|].
  exact (empty_bundle_forwarded (H := Fixture.codec) (Fixture.decodeAs Fixture.none) 200
           Cases.posted [Byte.x7b; Byte.x7d] Fixture.none (Fixture.env Fixture.found)
           Fixture.idle Hint eq_refl eq_refl).
Defined.

(** C10 at work: a GET with the body of an [attachToTangle] command. *)
Lemma other_methods_forwarded_witness :
  Method Fixture.get <> MethodPost /\
  (Fixture.serveHTTP Fixture.two 200 Fixture.get = NextServeHTTP Fixture.get Ret /\
   forall env w,
     run env (Fixture.serveHTTP Fixture.two 200 Fixture.get) w =
       (Returned (next env (length (trace w)) Fixture.get),
        mkWorld (trace w ++ [EvNext Fixture.get (next env (length (trace w)) Fixture.get)])
                (locked w))).
Proof.
  assert (Method Fixture.get <> MethodPost) as Hm by done.
  split; [done|].
  by apply (other_methods_forwarded (H := Fixture.codec) (Fixture.decodeAs Fixture.two) 200).
Defined.

(** C7 at work: of two requests, the first is inside the proof-of-work
    function and the second waits for the mutex. *)
Lemma one_bundle_at_a_time_witness :
  exists pool,
    (rtc step (serve (Fixture.serveHTTP Fixture.two 200) [Fixture.post; Fixture.post]) pool /\
     mu pool = true /\
     exists t m k, goroutines pool !! 0%nat = Some (Searching t m k)) /\
    ((forall i j ti mi ki tj mj kj,
        goroutines pool !! i = Some (Searching ti mi ki) ->
        goroutines pool !! j = Some (Searching tj mj kj) -> i = j) /\
     ((forall i g, goroutines pool !! i = Some g -> exists res, g = Running (Ret res)) ->
      mu pool = false) /\
     (forall r, bracketed false (Fixture.serveHTTP Fixture.two 200 r))).
Proof.
  assert (exists pool,
    rtc step (serve (Fixture.serveHTTP Fixture.two 200) [Fixture.post; Fixture.post]) pool /\
    mu pool = true /\
    exists t m k, goroutines pool !! 0%nat = Some (Searching t m k)) as (pool & Hsteps & Hmu & Hs).
  { eexists. split.
    - unfold serve. simpl.
      eapply rtc_l; [eapply (step_goroutine _ _ 0%nat); [reflexivity|apply gstep_lock]|simpl].
      eapply rtc_l; [eapply (step_goroutine _ _ 0%nat); [reflexivity|apply gstep_printf]|simpl].
      eapply rtc_l; [eapply (step_goroutine _ _ 0%nat); [reflexivity|apply (gstep_now _ _ 0)]|simpl].
      eapply rtc_l; [eapply (step_goroutine _ _ 0%nat); [reflexivity|apply gstep_printf]|simpl].
      eapply rtc_l; [eapply (step_goroutine _ _ 0%nat); [reflexivity|apply (gstep_now _ _ 0)]|simpl].
      eapply rtc_l; [eapply (step_goroutine _ _ 0%nat); [reflexivity|apply (gstep_now _ _ 0)]|simpl].
      eapply rtc_l; [eapply (step_goroutine _ _ 0%nat); [reflexivity|apply gstep_pow_call]|simpl].
      apply rtc_refl.
    - split; [done|]. by eexists _, _, _. }
  exists pool. split; [done|].
  by apply (one_bundle_at_a_time (H := Fixture.codec) (Fixture.decodeAs Fixture.two) 200
              [Fixture.post; Fixture.post]).
Defined.

(** ** More about the loops *)

Lemma wrap64_add_l a b : wrap64 (wrap64 a + b) = wrap64 (a + b).
Proof.
  unfold wrap64. change (2 ^ 63) with 9223372036854775808.
  change (2 ^ 64) with 18446744073709551616. f_equal.
  replace ((a + 9223372036854775808) `mod` 18446744073709551616
           - 9223372036854775808 + b + 9223372036854775808)
    with ((a + 9223372036854775808) `mod` 18446744073709551616 + b) by lia.
  rewrite Z.add_mod_idemp_l by lia. f_equal. lia.
Qed.

Lemma wrap64_idemp a : wrap64 (wrap64 a) = wrap64 a.
Proof.
  transitivity (wrap64 (wrap64 a + 0)); [by rewrite Z.add_0_r|].
  by rewrite wrap64_add_l, Z.add_0_r.
Qed.

Lemma wrap64_small a : - 2 ^ 63 <= a < 2 ^ 63 -> wrap64 a = a.
Proof.
  unfold wrap64. change (2 ^ 63) with 9223372036854775808.
  change (2 ^ 64) with 18446744073709551616.
  intros Ha. rewrite Z.mod_small by lia. lia.
Qed.

Section Loops.

Context {P : Type} `{!giota.Codec P}.

Abbreviation gtx := (giota.Transaction P).

(** The loop that builds [transactions], as a function of the trytes. *)
Lemma buildFrom_eq (txTrytes : list giota.Trytes) n :
  forall b v (acc : list gtx), (n <= length txTrytes)%nat -> wrap64 v = v ->
  buildFrom txTrytes n b v acc =
  Ret match mapM giota.NewTransaction (reverse (take n txTrytes)) with
      | None => None
      | Some ds => Some (b || isValue ds, wrap64 (v + negativeSum ds), acc ++ ds)
      end.
Proof.
  induction n as [|i IH]; intros b v acc Hn Hv; simpl.
  - by rewrite orb_false_r, Z.add_0_r, Hv, app_nil_r.
  - destruct (txTrytes !! i) as [s|] eqn:Hs; last (apply lookup_ge_None in Hs; lia).
    erewrite take_S_r by done. rewrite reverse_snoc. simpl.
    destruct (giota.NewTransaction s) as [t|]; simpl; [|done].
    rewrite IH; [|lia|case_bool_decide; [apply wrap64_idemp|done]].
    destruct (mapM giota.NewTransaction (reverse (take i txTrytes))) as [ds|]; simpl; [|done].
    do 3 f_equal; [f_equal|by rewrite <- app_assoc].
    + by destruct (bool_decide (giota.Value t > 0)), b.
    + case_bool_decide; [|done]. rewrite wrap64_add_l. f_equal. lia.
Qed.

Lemma isValue_true (ds : list gtx) :
  isValue ds = true <-> Exists (fun t => giota.Value t > 0) ds.
Proof.
  unfold isValue. rewrite existsb_exists, Exists_exists. split.
  - intros (t & Hin & Ht). exists t. split; [by apply list_elem_of_In|].
    by apply bool_decide_eq_true in Ht.
  - intros (t & Hin & Ht). exists t. split; [by apply list_elem_of_In|].
    by apply bool_decide_eq_true.
Qed.

Lemma pass_before_nonce (tra : Transaction P) prev (tx : list gtx) i ns nonce t :
  giota.setNonce (giota.Nonce t) (pass tra prev tx i ns nonce t) =
  stamp ns (link tra (bool_decide (i = (length tx - 1)%nat)) prev t).
Proof. unfold pass, stamp, link. by destruct t, (bool_decide _). Qed.

Lemma rounds_ext mwm (tx1 tx2 tx' : list gtx) n k evs err :
  (forall j, (j < n)%nat -> tx1 !! j = tx2 !! j) ->
  rounds mwm tx1 tx' n k evs err -> rounds mwm tx2 tx' n k evs err.
Proof.
  intros Hext Hr. induction Hr.
  - constructor.
  - constructor; try done. rewrite <- Hext; [done|lia].
  - constructor; try done; [rewrite <- Hext; [done|lia]|].
    apply IHHr. intros j Hj. apply Hext. lia.
Qed.

(** The loop of [doPow], call by call. *)
Lemma doPowFrom_rounds (tra : Transaction P) mwm n :
  forall (tx : list gtx) prev tr, (n <= length tx)%nat ->
  post (doPowFrom tra mwm n tx prev) tr (fun tr' r =>
    exists k evs, tr' = tr ++ evs /\
                  rounds mwm tx r.1 n k evs r.2 /\
                  stampedFrom tra prev n k tx r.1).
Proof.
  induction n as [|i IH]; intros tx prev tr Hn; simpl.
  - exists 0%nat, []. split; [by rewrite app_nil_r|]. split; [constructor|].
    split; [done|]. split; [done|]. intros j t' Hj. lia.
  - destruct (tx !! i) as [t|] eqn:Ht; last (apply lookup_ge_None in Ht; lia).
    assert (i < length tx)%nat as Hi by lia.
    intros ns [nonce [e|]]; simpl.
    + exists i, (passCalls mwm t (pass tra prev tx i ns nonce t) ns (nonce, Some e)).
      split; [unfold passCalls; by rewrite pass_before_nonce, <- app_assoc|].
      split; [|by apply (stampedFrom_stop tra prev tx i ns nonce t)].
      destruct (pass_fields tra prev tx i ns nonce t) as (_ & _ & _ & Hts & Hno & _).
      constructor; try done. by apply list_lookup_insert_eq.
    + eapply post_mono; [|apply IH; rewrite length_insert; lia].
      intros tr' [tx' err] (k & evs & -> & Hr & Hst); simpl in *.
      assert (k <= i)%nat as Hk.
      { clear -Hr. induction Hr; lia. }
      exists k, (passCalls mwm t (pass tra prev tx i ns nonce t) ns (nonce, None) ++ evs).
      split; [unfold passCalls; rewrite pass_before_nonce, <- !app_assoc; done|].
      split; [|by apply (stampedFrom_step tra prev tx i ns nonce t)].
      destruct (pass_fields tra prev tx i ns nonce t) as (_ & _ & _ & Hts & Hno & _).
      destruct Hst as (Hlen & Hout & _).
      constructor; try done.
      * rewrite Hout by lia. by apply list_lookup_insert_eq.
      * eapply rounds_ext; [|done]. intros j Hj. apply list_lookup_insert_ne. lia.
Qed.

End Loops.

Section Rounds.

Context {P : Type} `{!giota.Codec P}.

Lemma rounds_bounds mwm (tx tx' : list (giota.Transaction P)) n k evs err :
  rounds mwm tx tx' n k evs err -> (k <= n)%nat /\ length evs = (2 * (n - k))%nat.
Proof.
  induction 1 as [|i t0 t' ns nonce e|i k t0 t' ns nonce evs err ? ? ? ? ? [IHk IHl]]; simpl.
  - done.
  - split; lia.
  - rewrite IHl. split; lia.
Qed.

(** The loop stops at the first proof of work that fails, and returns its
    error. *)
Lemma rounds_error mwm (tx tx' : list (giota.Transaction P)) n k evs err :
  rounds mwm tx tx' n k evs err ->
  match err with
  | None => k = 0%nat /\ forall t m res, EvPow t m res ∈ evs -> res.2 = None
  | Some e =>
      (k < n)%nat /\
      exists pre t nonce,
        evs = pre ++ [EvPow t mwm (nonce, Some e)] /\
        forall t m res, EvPow t m res ∈ pre -> res.2 = None
  end.
Proof.
  induction 1 as [|i t0 t' ns nonce e|i k t0 t' ns nonce evs err ? ? ? ? ? IH].
  - split; [done|]. intros t m res Hin. by apply elem_of_nil in Hin.
  - split; [lia|]. eexists [EvNow ns], _, _. split; [done|].
    intros t m res Hin. apply list_elem_of_singleton in Hin. done.
  - destruct err as [e|].
    + destruct IH as (Hk & pre & t & nonce' & -> & Hpre). split; [lia|].
      exists (passCalls mwm t0 t' ns (nonce, None) ++ pre), t, nonce'.
      split; [by rewrite <- app_assoc|].
      intros t1 m res Hin. apply elem_of_app in Hin as [Hin|Hin]; [|by eapply Hpre].
      unfold passCalls in Hin. rewrite !elem_of_cons, elem_of_nil in Hin.
      by destruct Hin as [?|[[= _ _ ->]|[]]].
    + destruct IH as [-> Hall]. split; [done|].
      intros t m res Hin. apply elem_of_app in Hin as [Hin|Hin]; [|by eapply Hall].
      unfold passCalls in Hin. rewrite !elem_of_cons, elem_of_nil in Hin.
      by destruct Hin as [?|[[= _ _ ->]|[]]].
Qed.


Lemma rounds_silent mwm (tx tx' : list (giota.Transaction P)) n k evs err :
  rounds mwm tx tx' n k evs err ->
  Forall (fun e => match e with EvNow _ | EvPow _ _ _ => True | _ => False end) evs.
Proof.
  induction 1; [constructor|by repeat constructor|].
  apply Forall_app. split; [by repeat constructor|done].
Qed.

End Rounds.

(** ** The handler, path by path *)

Section Paths.

Context {P : Type} `{!giota.Codec P}.
Variable jsonDecode : Decoder.
Variable maxTxInBundle : Z.

(** Under the mutex, the handler takes one of four paths. *)
Lemma attachToTangle_answered r command tr :
  post (attachToTangle maxTxInBundle r command) tr (answered maxTxInBundle r command tr).
Proof.
  unfold attachToTangle. simpl. intros start.
  case_decide as Hlen.
  { simpl. intros res. exists start. left. split; [by destruct (Trytes command)|].
    by rewrite <- !app_assoc. }
  assert (Trytes command <> []) as Hne by (by intros Hnil; rewrite Hnil in Hlen).
  case_bool_decide as Hmax.
  { simpl. exists start. right. left. by rewrite <- !app_assoc. }
  rewrite buildFrom_eq, firstn_all by done.
  destruct (mapM giota.NewTransaction (reverse (Trytes command))) as [transactions|] eqn:Hdec;
    simpl.
  2:{ exists start. right. right. left. by rewrite <- !app_assoc. }
  rewrite Z.add_0_l.
  destruct (isValue transactions) eqn:Hv; simpl; intros s.
  all: apply post_bind; eapply post_mono; [|by apply doPowFrom_rounds].
  all: intros tr3 [attached err] (k & pows & -> & Hr & Hst); simpl in Hr, Hst; simpl.
  all: intros t1 t2 out; destruct out as [resBytes [e|]] eqn:Hout; simpl.
  all: exists start; do 3 right.
  all: split; [done|]; split; [done|]; exists transactions; split; [done|].
  all: exists s, attached, err, k, pows, t1, t2, out; subst out; simpl.
  all: split; [done|]; split; [done|]; rewrite Hv.
  all: split; [|done].
  all: by rewrite <- !app_assoc.
Qed.

(** The same of a run of [ServeHTTP] that takes the mutex. *)
Lemma ServeHTTP_answered r contents command env w res w' :
  intercepted jsonDecode r contents command ->
  run env (ServeHTTP jsonDecode maxTxInBundle r) w = (Returned res, w') ->
  exists tr',
    trace w' = tr' ++ [EvUnlock] /\
    answered maxTxInBundle (setBody (NopCloser contents) r) command
      (trace w ++ [EvLock]) tr' res.
Proof.
  intros Hint Hrun.
  rewrite (ServeHTTP_intercepted _ _ _ _ _ Hint) in Hrun.
  pose proof (post_run env
    (Lock (deferUnlock (attachToTangle maxTxInBundle (setBody (NopCloser contents) r) command)))
    w (fun tr1 res1 => exists tr',
         tr1 = tr' ++ [EvUnlock] /\
         answered maxTxInBundle (setBody (NopCloser contents) r) command
           (trace w ++ [EvLock]) tr' res1)) as Hpost.
  rewrite Hrun in Hpost. apply Hpost.
  apply (proj2 (post_deferUnlock (attachToTangle maxTxInBundle _ command)
                  (trace w ++ [EvLock]) _)).
  eapply post_mono; [|apply attachToTangle_answered].
  intros tr' res' Hans. by exists tr'.
Qed.

End Paths.

(** ** More about the attacher *)

Section AttacherCalls.

Context {P : Type} `{!giota.Codec P}.

Lemma since_app w w' evs : trace w' = trace w ++ evs -> since w w' = evs.
Proof. intros Htr. unfold since. by rewrite Htr, drop_app_length. Qed.




(** X4. When every entry decodes, the loop that builds [transactions]
    returns the decoded entries, last entry first; [isValueTransaction] is
    set exactly when one of them has a positive value, and [inputValue] is
    the sum of the negative values, wrapped to 64 bits. *)
Theorem bundle_classified (txTrytes : list giota.Trytes) b v transactions :
  buildFrom txTrytes (length txTrytes) false 0 [] = Ret (Some (b, v, transactions)) ->
  Forall2 decodes (reverse txTrytes) transactions /\
  (b = true <-> Exists (fun t => giota.Value t > 0) transactions) /\
  v = wrap64 (negativeSum transactions).
Proof.
  rewrite buildFrom_eq, firstn_all by done.
  destruct (mapM giota.NewTransaction (reverse txTrytes)) as [ds|] eqn:Hds; [|done].
  intros [= <- <- <-]. rewrite Z.add_0_l. split; [|split; [apply isValue_true|done]].
  by apply mapM_Some in Hds.
Qed.

(** The loop that builds [transactions] returns with [ErrBuildingTx]
    exactly when some entry does not decode. *)
Lemma bundle_malformed (txTrytes : list giota.Trytes) :
  buildFrom txTrytes (length txTrytes) false 0 [] = Ret None <->
  Exists (fun s => giota.NewTransaction s = None) txTrytes.
Proof.
  rewrite buildFrom_eq, firstn_all by done.
  rewrite Exists_exists. setoid_rewrite <- elem_of_reverse.
  rewrite <- Exists_exists, <- mapM_None.
  destruct (mapM giota.NewTransaction (reverse txTrytes)); split; done.
Qed.

End AttacherCalls.

(** ** More about the handler *)

Section ServingMore.

Context {P : Type} `{!giota.Codec P}.
Variable jsonDecode : Decoder.
Variable maxTxInBundle : Z.

Lemma intercepted_not_null r contents command :
  intercepted jsonDecode r contents command -> ~ nullCommand jsonDecode r.
Proof.
  intros (_ & (body & Hb & Hread) & Hdec & _) (_ & body' & contents' & Hb' & Hread' & Hnull).
  congruence.
Qed.

Lemma ServeHTTP_null r :
  nullCommand jsonDecode r -> ServeHTTP jsonDecode maxTxInBundle r = Panic.
Proof.
  intros (Hm & body & contents & Hb & Hread & Hdec).
  unfold ServeHTTP. by rewrite Hm, Hb, Hread, Hdec.
Qed.

(** Run alone with the mutex free, the handler of an [attachToTangle]
    request returns after one of the four paths, the mutex free again. *)
Lemma ServeHTTP_intercepted_run r contents command env w :
  intercepted jsonDecode r contents command ->
  locked w = false ->
  exists res tr',
    run env (ServeHTTP jsonDecode maxTxInBundle r) w =
      (Returned res, mkWorld (tr' ++ [EvUnlock]) false) /\
    answered maxTxInBundle (setBody (NopCloser contents) r) command
      (trace w ++ [EvLock]) tr' res.
Proof.
  intros Hint Hw.
  destruct (ServeHTTP_returns jsonDecode maxTxInBundle r env w
              (intercepted_not_null _ _ _ Hint) Hw) as (res & w' & Hrun & Hl).
  destruct (ServeHTTP_answered jsonDecode maxTxInBundle r contents command env w res w'
              Hint Hrun) as (tr' & Htr & Hans).
  exists res, tr'. split; [|done]. rewrite Hrun. destruct w'; simpl in *. by subst.
Qed.

(** A request is intercepted, makes the handler panic, is refused for its
    body, or is forwarded. *)
Lemma ServeHTTP_shape r :
  (exists contents command, intercepted jsonDecode r contents command) \/
  nullCommand jsonDecode r \/
  ServeHTTP jsonDecode maxTxInBundle r = Ret (StatusBadRequest, Some ErrMissingBody) \/
  exists r', ServeHTTP jsonDecode maxTxInBundle r = NextServeHTTP r' Ret.
Proof.
  unfold ServeHTTP, intercepted, nullCommand.
  destruct (String.eqb_spec (Method r) MethodPost) as [Hm|Hm]; simpl;
    [|right; right; right; by eexists].
  destruct (Body r) as [body|]; [|by right; right; left].
  destruct (ReadAll body) as [contents [e|]] eqn:Hread; [by right; right; left|].
  destruct (jsonDecode contents) as [[command|] [e|]] eqn:Hdec;
    [right; right; right; by eexists| |right; right; right; by eexists|].
  - destruct (String.eqb_spec (Command command) attachToTangleCommand) as [Hc|Hc]; simpl;
      [|right; right; right; by eexists].
    left. exists contents, command. split; [done|]. split; [by exists body|done].
  - right; left. split; [done|]. by exists body, contents.
Qed.

(** A request that passes by the mutex is neither intercepted nor one
    that makes the handler panic. *)
Lemma ServeHTTP_passes r :
  ServeHTTP jsonDecode maxTxInBundle r = Ret (StatusBadRequest, Some ErrMissingBody) \/
  (exists r', ServeHTTP jsonDecode maxTxInBundle r = NextServeHTTP r' Ret) ->
  (forall contents command, ~ intercepted jsonDecode r contents command) /\
  ~ nullCommand jsonDecode r.
Proof.
  intros Hfree. split.
  - intros contents command Hint.
    rewrite (ServeHTTP_intercepted _ _ _ _ _ Hint) in Hfree.
    by destruct Hfree as [?|[r' ?]].
  - intros Hnull. rewrite (ServeHTTP_null _ Hnull) in Hfree.
    by destruct Hfree as [?|[r' ?]].
Qed.

(** X1. A POST request without a body, or with a body that cannot be read,
    is answered 400 with [ErrMissingBody]: the handler makes no call, so it
    neither takes the mutex nor forwards the request. *)
Theorem missing_body_refused r :
  Method r = MethodPost ->
  Body r = None \/ (exists body e, Body r = Some body /\ (ReadAll body).2 = Some e) ->
  ServeHTTP jsonDecode maxTxInBundle r = Ret (StatusBadRequest, Some ErrMissingBody) /\
  forall env w,
    run env (ServeHTTP jsonDecode maxTxInBundle r) w =
      (Returned (StatusBadRequest, Some ErrMissingBody), w).
Proof.
  intros Hm Hbody.
  assert (ServeHTTP jsonDecode maxTxInBundle r = Ret (StatusBadRequest, Some ErrMissingBody))
    as ->; [|done].
  unfold ServeHTTP. rewrite Hm. simpl.
  destruct Hbody as [->|(body & e & -> & He)]; [done|].
  destruct (ReadAll body) as [contents err]. simpl in He. by subst.
Qed.

(** X2. A POST request whose body the decoder fails on, or decodes to
    another command, goes to the next handler without the mutex, as the
    only call.  The handler has read the body to its end, so that the
    stream yields nothing more; the request it forwards has a body that
    yields the bytes read once again, is not the stream the read has left,
    and is otherwise as it came. *)
Theorem other_commands_forwarded r body contents :
  Method r = MethodPost ->
  Body r = Some body -> ReadAll body = (contents, None) ->
  is_Some (jsonDecode contents).2 \/
    (exists command, jsonDecode contents = (Some command, None) /\
                     Command command <> attachToTangleCommand) ->
  let r' := setBody (NopCloser contents) r in
  ServeHTTP jsonDecode maxTxInBundle r = NextServeHTTP r' Ret /\
  Method r' = Method r /\ RemoteAddr r' = RemoteAddr r /\
  ReadAll (drained body) = ([], None) /\
  (exists body', Body r' = Some body' /\ ReadAll body' = (contents, None)) /\
  (contents <> [] -> Body r' <> Some (drained body)).
Proof.
  intros Hm Hb Hread Hdec r'. split.
  { unfold ServeHTTP. rewrite Hb, Hread. simpl.
    destruct (String.eqb_spec (Method r) MethodPost) as [_|?]; [simpl|done].
    destruct Hdec as [[e He]|(command & -> & Hc)].
    - destruct (jsonDecode contents) as [command err]. simpl in He. by subst.
    - by destruct (String.eqb_spec (Command command) attachToTangleCommand). }
  split; [done|]. split; [done|].
  destruct body as [data|e']; [|done]. injection Hread as <-.
  split; [done|]. split; [by exists (Reader data)|].
  intros Hne [= ->]. done.
Qed.

(** X3. A bundle that is not empty and within the limit is refused with
    400 and [ErrBuildingTx] exactly when one of its entries does not decode;
    the handler has then called neither the proof-of-work function nor the
    next handler, and has given the mutex back. *)
Theorem malformed_transaction_refused r contents command env w :
  intercepted jsonDecode r contents command ->
  Trytes command <> [] ->
  ~ Z.of_nat (length (Trytes command)) > maxTxInBundle ->
  locked w = false ->
  exists res w',
    run env (ServeHTTP jsonDecode maxTxInBundle r) w = (Returned res, w') /\
    (Exists (fun s => giota.NewTransaction s = None) (Trytes command) <->
     res = (StatusBadRequest, Some ErrBuildingTx)) /\
    (res = (StatusBadRequest, Some ErrBuildingTx) ->
     exists ns,
       w' = mkWorld (trace w ++ [EvLock; EvPrintf (LogNewRequest (RemoteAddr r));
                                 EvNow ns; EvUnlock]) false).
Proof.
  intros Hint Hne Hmax Hw.
  destruct (ServeHTTP_intercepted_run r contents command env w Hint Hw)
    as (res & tr' & Hrun & start & Hans).
  exists res, (mkWorld (tr' ++ [EvUnlock]) false). split; [done|].
  assert (Exists (fun s => giota.NewTransaction s = None) (Trytes command) <->
          mapM giota.NewTransaction (reverse (Trytes command)) = None) as Hiff.
  { rewrite mapM_None, !Exists_exists. by setoid_rewrite elem_of_reverse. }
  simpl in Hans.
  destruct Hans as [[Hnil _]|[(_ & Hgt & _)|[(_ & _ & Hnone & -> & ->)|(_ & _ & txs & Hsome & Hserved)]]];
    [done|done| |].
  - split; [by rewrite Hiff|]. intros _. exists start. by rewrite <- !app_assoc.
  - destruct Hserved as (s & attached & err & k & pows & t1 & t2 & out & _ & _ & _ & ->).
    split; [|by destruct (out.2)].
    rewrite Hiff, Hsome. by destruct (out.2).
Qed.

(** X5. Once every entry of a bundle within the limit has decoded, the JSON
    encoder alone decides the answer, whatever the proof-of-work function
    has returned.  The handler encodes as many trytes as the request has;
    when the encoder succeeds it sets the two headers, writes the encoded
    bytes and returns 200; when the encoder fails it returns 500 with
    [ErrBuildingRes].  Before the encoder no header and no body is
    written. *)
Theorem encoder_decides_status r contents command env w :
  intercepted jsonDecode r contents command ->
  Trytes command <> [] ->
  ~ Z.of_nat (length (Trytes command)) > maxTxInBundle ->
  Forall (fun s => is_Some (giota.NewTransaction s)) (Trytes command) ->
  locked w = false ->
  exists res w' pre response out,
    run env (ServeHTTP jsonDecode maxTxInBundle r) w = (Returned res, w') /\
    locked w' = false /\
    length (ResTrytes response) = length (Trytes command) /\
    Forall silent pre /\
    match out.2 with
    | None =>
        res = (StatusOK, None) /\
        since w w' = pre ++ [EvMarshal response out;
                             EvHeaderSet contentType contentTypeJSON;
                             EvHeaderSet "access-control-allow-origin" "*";
                             EvWrite out.1;
                             EvUnlock]
    | Some _ =>
        res = (StatusInternalServerError, Some ErrBuildingRes) /\
        since w w' = pre ++ [EvMarshal response out; EvUnlock]
    end.
Proof.
  intros Hint Hne Hmax Hall Hw.
  destruct (ServeHTTP_intercepted_run r contents command env w Hint Hw)
    as (res & tr' & Hrun & start & Hans).
  simpl in Hans.
  destruct Hans as [[Hnil _]|[(_ & Hgt & _)|[(_ & _ & Hnone & _)|(_ & _ & txs & Hsome & Hserved)]]];
    [done|done| |].
  { apply mapM_None, Exists_exists in Hnone as (s & Hin & Hs).
    rewrite elem_of_reverse in Hin. rewrite Forall_forall in Hall.
    destruct (Hall s Hin) as [t Ht]. congruence. }
  destruct Hserved as (s & attached & err & k & pows & t1 & t2 & out & Hr & Hst & -> & ->).
  eexists _, _,
    ([EvLock; EvPrintf (LogNewRequest (RemoteAddr r)); EvNow start] ++
     (if isValue txs then [EvPrintf (LogInput (wrap64 (negativeSum txs)))] else []) ++
     [EvPrintf (LogDoingPow (length txs) (isValue txs)); EvNow s] ++ pows ++
     [EvNow t1; EvPrintf (LogTookPow (wrap64 (t1 - s) `quot` 1000000) (length txs));
      EvNow t2]),
    (mkRes (giota.TxTrytes <$> attached) (wrap64 (t2 - start) `quot` 1000000)), out.
  split; [done|]. split; [done|]. split.
  { simpl. rewrite length_fmap. destruct Hst as [-> _].
    apply length_mapM in Hsome. by rewrite <- Hsome, length_reverse. }
  split.
  { rewrite !Forall_app. split; [by repeat constructor|].
    split; [destruct (isValue txs); by repeat constructor|].
    split; [by repeat constructor|]. split; [|by repeat constructor].
    eapply Forall_impl; [by eapply rounds_silent|]. by intros []. }
  destruct (out.2); (split; [done|]); apply since_app;
    repeat (progress (simpl; rewrite <- ?app_assoc)); done.
Qed.

(** X6. In a request answered with 200 after no proof of work has failed,
    the first entry is attached to the two anchors of the request, and
    every later entry to the hash of the attached form of the entry before
    it and to the trunk anchor; the answer has the attached forms in the
    reverse order. *)
Theorem response_links r contents command env w w' :
  intercepted jsonDecode r contents command ->
  Trytes command <> [] ->
  run env (ServeHTTP jsonDecode maxTxInBundle r) w = (Returned (StatusOK, None), w') ->
  (forall t m res, EvPow t m res ∈ since w w' -> res.2 = None) ->
  exists attached response,
    responded (trace w') response /\
    ResTrytes response = giota.TxTrytes <$> attached /\
    length attached = length (Trytes command) /\
    forall j s, Trytes command !! j = Some s ->
      exists t t',
        decodes s t /\
        attached !! (length (Trytes command) - 1 - j)%nat = Some t' /\
        frame t t' /\
        if decide (j = 0%nat)
        then giota.TrunkTransaction t' = TrunkTxHash command /\
             giota.BranchTransaction t' = BranchTxHash command
        else giota.BranchTransaction t' = TrunkTxHash command /\
             exists u, attached !! (length (Trytes command) - j)%nat = Some u /\
                       giota.TrunkTransaction t' = giota.TxHash u.
Proof.
  intros Hint Hne Hrun Hpows.
  destruct (ServeHTTP_answered jsonDecode maxTxInBundle r contents command env w _ w'
              Hint Hrun) as (tr' & Htr & start & Hans).
  simpl in Hans.
  destruct Hans as [[Hnil _]|[(_ & _ & _ & [=])|[(_ & _ & _ & _ & [=])|(_ & _ & txs & Hsome & Hserved)]]];
    [done|].
  destruct Hserved as (s & attached & err & k & pows & t1 & t2 & [resBytes oerr] & Hr & Hst & Htr' & Hres).
  simpl in Hres, Htr'. destruct oerr as [e|]; [done|].
  assert (since w w' = [EvLock; EvPrintf (LogNewRequest (RemoteAddr r)); EvNow start] ++
     (if isValue txs then [EvPrintf (LogInput (wrap64 (negativeSum txs)))] else []) ++
     [EvPrintf (LogDoingPow (length txs) (isValue txs)); EvNow s] ++ pows ++
     [EvNow t1; EvPrintf (LogTookPow (wrap64 (t1 - s) `quot` 1000000) (length txs));
      EvNow t2;
      EvMarshal (mkRes (giota.TxTrytes <$> attached) (wrap64 (t2 - start) `quot` 1000000))
        (resBytes, None);
      EvHeaderSet contentType contentTypeJSON;
      EvHeaderSet "access-control-allow-origin" "*";
      EvWrite resBytes; EvUnlock]) as Hsince.
  { apply since_app. rewrite Htr, Htr'.
    repeat (progress (simpl; rewrite <- ?app_assoc)). done. }
  assert (err = None /\ k = 0%nat) as [-> ->].
  { pose proof (rounds_error _ _ _ _ _ _ _ Hr) as Herr. destruct err as [e|]; [|by destruct Herr].
    destruct Herr as (_ & pre & t & nonce & -> & _). exfalso.
    assert (Some e = None) as Hfalse; [|done].
    apply (Hpows t 14 (nonce, Some e)). rewrite Hsince.
    rewrite !elem_of_app, !elem_of_cons. naive_solver. }
  apply mapM_Some in Hsome. pose proof (Forall2_length _ _ _ Hsome) as Hlen.
  rewrite length_reverse in Hlen.
  destruct Hst as (Hlen' & _ & Hin).
  exists attached, (mkRes (giota.TxTrytes <$> attached) (wrap64 (t2 - start) `quot` 1000000)).
  split.
  { exists (trace w ++ [EvLock; EvPrintf (LogNewRequest (RemoteAddr r)); EvNow start] ++
       (if isValue txs then [EvPrintf (LogInput (wrap64 (negativeSum txs)))] else []) ++
       [EvPrintf (LogDoingPow (length txs) (isValue txs)); EvNow s] ++ pows ++
       [EvNow t1; EvPrintf (LogTookPow (wrap64 (t1 - s) `quot` 1000000) (length txs));
        EvNow t2]), resBytes.
    rewrite Htr, Htr'. repeat (progress (simpl; rewrite <- ?app_assoc)). done. }
  split; [done|]. split; [congruence|].
  intros j s0 Hj.
  assert (j < length (Trytes command))%nat as Hlt by (by eapply lookup_lt_Some).
  assert (reverse (Trytes command) !! (length (Trytes command) - 1 - j)%nat = Some s0) as Hrev.
  { rewrite reverse_lookup by lia. rewrite <- Hj. f_equal. lia. }
  destruct (Forall2_lookup_l _ _ _ _ _ Hsome Hrev) as (t & Ht & Hdec).
  assert (is_Some (attached !! (length (Trytes command) - 1 - j)%nat)) as [t' Ht'].
  { apply lookup_lt_is_Some. rewrite Hlen', <- Hlen. lia. }
  destruct (Hin (length (Trytes command) - 1 - j)%nat t') as ((t0 & Ht0 & Hf) & _ & _ & Hl);
    [rewrite <- Hlen; lia|done|].
  exists t, t'. split; [done|]. split; [done|]. split; [congruence|].
  simpl in Hl. rewrite <- Hlen in Hl.
  destruct (decide (j = 0%nat)) as [->|Hj0].
  - rewrite decide_True in Hl by lia. done.
  - rewrite decide_False in Hl by lia. destruct Hl as [Hbr Htrk]. split; [done|].
    rewrite decide_False in Htrk by lia.
    replace (length (Trytes command) - j)%nat with (S (length (Trytes command) - 1 - j)) by lia.
    done.
Qed.

(** X9. A header or the body of the response is written only on the path
    that returns 200: when the handler writes either, it returns 200 and no
    error. *)
Theorem writes_only_with_200 r env w res w' :
  run env (ServeHTTP jsonDecode maxTxInBundle r) w = (Returned res, w') ->
  Exists (fun e => ~ silent e) (since w w') ->
  res = (StatusOK, None).
Proof.
  intros Hrun Hex.
  destruct (ServeHTTP_shape r) as [(contents & command & Hint)|[Hnull|[Hret|[r' Hnext]]]].
  2:{ by rewrite (ServeHTTP_null _ Hnull) in Hrun. }
  2:{ rewrite Hret in Hrun. injection Hrun as <- <-.
      unfold since in Hex. rewrite drop_all in Hex. by apply Exists_nil in Hex. }
  2:{ rewrite Hnext in Hrun. simpl in Hrun. injection Hrun as <- <-.
      unfold since in Hex. simpl in Hex. rewrite drop_app_length in Hex.
      apply Exists_cons in Hex as [Hex|Hex]; [by destruct Hex|by apply Exists_nil in Hex]. }
  destruct (ServeHTTP_answered jsonDecode maxTxInBundle r contents command env w _ w'
              Hint Hrun) as (tr' & Htr & start & Hans).
  simpl in Hans.
  assert (forall evs, since w w' = evs -> Forall silent evs -> False) as Hquiet.
  { intros evs Hs Hall. rewrite Hs in Hex. apply Exists_exists in Hex as (e & Hin & Hne).
    rewrite Forall_forall in Hall. by apply Hne, Hall. }
  destruct Hans as [[_ Htr']|[(_ & _ & Htr' & _)|[(_ & _ & _ & Htr' & _)|(_ & _ & txs & _ & Hserved)]]].
  - exfalso. eapply Hquiet.
    + apply since_app. rewrite Htr, Htr'. repeat (progress (simpl; rewrite <- ?app_assoc)). done.
    + by repeat constructor.
  - exfalso. eapply Hquiet.
    + apply since_app. rewrite Htr, Htr'. repeat (progress (simpl; rewrite <- ?app_assoc)). done.
    + by repeat constructor.
  - exfalso. eapply Hquiet.
    + apply since_app. rewrite Htr, Htr'. repeat (progress (simpl; rewrite <- ?app_assoc)). done.
    + by repeat constructor.
  - destruct Hserved as (s & attached & err & k & pows & t1 & t2 & [resBytes oerr] & Hr & _ & Htr' & ->).
    destruct oerr as [e|]; simpl in *; [|done].
    exfalso. eapply Hquiet.
    + apply since_app. rewrite Htr, Htr'. repeat (progress (simpl; rewrite <- ?app_assoc)). done.
    + repeat (rewrite Forall_cons || rewrite Forall_app).
      repeat split; try done.
      * destruct (isValue txs); by repeat constructor.
      * eapply Forall_impl; [by eapply rounds_silent|]. by intros [].
Qed.

(** X10. The limit is inclusive: a bundle with exactly [maxTxInBundle]
    entries is never answered with the limit error. *)
Theorem limit_is_inclusive r contents command env w res w' :
  intercepted jsonDecode r contents command ->
  Trytes command <> [] ->
  Z.of_nat (length (Trytes command)) = maxTxInBundle ->
  run env (ServeHTTP jsonDecode maxTxInBundle r) w = (Returned res, w') ->
  forall msg, res <> (StatusBadRequest, Some (Wrapf ErrTxBundleLimitExceeded msg)).
Proof.
  intros Hint Hne Hmax Hrun msg.
  destruct (ServeHTTP_answered jsonDecode maxTxInBundle r contents command env w _ w'
              Hint Hrun) as (tr' & Htr & start & Hans).
  simpl in Hans.
  destruct Hans as [[Hnil _]|[(_ & Hgt & _)|[(_ & _ & _ & _ & ->)|(_ & _ & txs & _ & Hserved)]]];
    [done|lia|done|].
  destruct Hserved as (s & attached & err & k & pows & t1 & t2 & out & _ & _ & _ & ->).
  by destruct (out.2).
Qed.

(** Under the mutex the handler only adds calls. *)
Lemma answered_extends r command tr tr' res :
  answered maxTxInBundle r command tr tr' res -> exists evs, tr' = tr ++ evs.
Proof.
  intros (start & Hans). simpl in Hans.
  destruct Hans as [[_ ->]|[(_ & _ & -> & _)|[(_ & _ & _ & -> & _)|(_ & _ & txs & _ & Hserved)]]].
  - rewrite <- app_assoc. by eexists.
  - by eexists.
  - by eexists.
  - destruct Hserved as (s & attached & err & k & pows & t1 & t2 & out & _ & _ & -> & _).
    rewrite <- app_assoc. by eexists.
Qed.

(** X11. While another request holds the mutex, the handler waits
    exactly when the request is a POST whose body decodes to an
    [attachToTangle] command, and it has made no call yet.  A POST whose
    body decodes to [null] makes the handler panic, without a call.  Every
    other request is answered without the mutex. *)
Theorem only_attach_waits r env w :
  locked w = true ->
  ((exists contents command, intercepted jsonDecode r contents command) /\
   run env (ServeHTTP jsonDecode maxTxInBundle r) w = (Blocked, w)) \/
  (nullCommand jsonDecode r /\
   run env (ServeHTTP jsonDecode maxTxInBundle r) w = (Panicked, w)) \/
  ((forall contents command, ~ intercepted jsonDecode r contents command) /\
   ~ nullCommand jsonDecode r /\
   exists res w',
     run env (ServeHTTP jsonDecode maxTxInBundle r) w = (Returned res, w') /\
     locked w' = true /\
     Forall (fun e => e <> EvLock /\ e <> EvUnlock) (since w w')).
Proof.
  intros Hw.
  destruct (ServeHTTP_shape r) as [(contents & command & Hint)|[Hnull|Hfree]].
  - left. split; [by exists contents, command|].
    rewrite (ServeHTTP_intercepted _ _ _ _ _ Hint). simpl. by rewrite Hw.
  - right; left. split; [done|]. by rewrite (ServeHTTP_null _ Hnull).
  - right; right. destruct (ServeHTTP_passes r Hfree) as [Hnot Hnn].
    split; [done|]. split; [done|].
    destruct Hfree as [->|[r' ->]]; simpl.
    + exists (StatusBadRequest, Some ErrMissingBody), w. split; [done|]. split; [done|].
      unfold since. rewrite drop_all. constructor.
    + eexists _, _. split; [done|]. split; [done|].
      unfold since. simpl. rewrite drop_app_length. by repeat constructor.
Qed.

(** X12. Started with the mutex free, the handler panics, without a call,
    when the request is a POST whose body decodes to [null]; on every
    other request it returns and leaves the mutex free.  It takes the
    mutex exactly when the request is a POST whose body decodes to an
    [attachToTangle] command, and then taking it is its first call and
    giving it back its last. *)
Theorem mutex_taken_iff_intercepted r env w :
  locked w = false ->
  (nullCommand jsonDecode r /\
   run env (ServeHTTP jsonDecode maxTxInBundle r) w = (Panicked, w)) \/
  (~ nullCommand jsonDecode r /\
   exists res w',
     run env (ServeHTTP jsonDecode maxTxInBundle r) w = (Returned res, w') /\
     locked w' = false /\
     ((exists contents command, intercepted jsonDecode r contents command) <->
      EvLock ∈ since w w') /\
     (EvLock ∈ since w w' ->
      exists evs, since w w' = [EvLock] ++ evs ++ [EvUnlock])).
Proof.
  intros Hw.
  destruct (ServeHTTP_shape r) as [(contents & command & Hint)|[Hnull|Hfree]].
  - right. split; [by eapply intercepted_not_null|].
    destruct (ServeHTTP_intercepted_run r contents command env w Hint Hw)
      as (res & tr' & Hrun & Hans).
    apply answered_extends in Hans as [evs ->].
    exists res, (mkWorld (((trace w ++ [EvLock]) ++ evs) ++ [EvUnlock]) false).
    split; [done|]. split; [done|].
    assert (since w (mkWorld (((trace w ++ [EvLock]) ++ evs) ++ [EvUnlock]) false) =
            [EvLock] ++ evs ++ [EvUnlock]) as ->.
    { apply since_app. simpl. by rewrite <- !app_assoc. }
    split; [|by exists evs].
    split; [intros _; by left|intros _; by exists contents, command].
  - left. split; [done|]. by rewrite (ServeHTTP_null _ Hnull).
  - right. destruct (ServeHTTP_passes r Hfree) as [Hnot Hnn]. split; [done|].
    destruct Hfree as [->|[r' ->]]; simpl.
    + exists (StatusBadRequest, Some ErrMissingBody), w. split; [done|]. split; [done|].
      unfold since. rewrite drop_all.
      split; [split|]; [intros (contents & command & Hint); by destruct (Hnot _ _ Hint)| |];
        by intros ?%elem_of_nil.
    + eexists _, _. split; [done|]. split; [done|].
      unfold since. simpl. rewrite drop_app_length.
      split; [split|]; [intros (contents & command & Hint); by destruct (Hnot _ _ Hint)| |];
        intros Hin%list_elem_of_singleton; done.
Qed.

(** X14. A POST whose body decodes, without an error, to the JSON value
    [null] makes the handler panic: the decoder has set the pointer
    [command] to nil, and the handler reads [command.Command].  It has
    made no call then: the request is not forwarded, and the mutex is not
    touched. *)
Theorem null_command_panics r :
  nullCommand jsonDecode r ->
  ServeHTTP jsonDecode maxTxInBundle r = Panic /\
  forall env w, run env (ServeHTTP jsonDecode maxTxInBundle r) w = (Panicked, w).
Proof.
  intros Hnull. by rewrite (ServeHTTP_null _ Hnull).
Qed.

(** X15. On every other request the handler does not panic, whatever the
    clock, the proof-of-work function, the next handler and the encoder
    return, and whatever the state of the mutex: the two loops stay
    within their slices. *)
Theorem panics_only_on_null r env w :
  ~ nullCommand jsonDecode r ->
  (run env (ServeHTTP jsonDecode maxTxInBundle r) w).1 <> Panicked.
Proof.
  intros Hnull Hrun.
  pose proof (post_run env (ServeHTTP jsonDecode maxTxInBundle r) w (fun _ _ => True)
                (post_ServeHTTP jsonDecode maxTxInBundle r (trace w) Hnull)) as Hpost.
  destruct (run env (ServeHTTP jsonDecode maxTxInBundle r) w) as [[res| |] w']; done.
Qed.

End ServingMore.

(** ** The goroutines never get stuck *)

(** A goroutine that has neither returned nor panicked goes on, unless it
    waits for a mutex that is taken. *)
Lemma gstep_progress {R : Type} m (g : Goroutine R) held :
  holds held g -> ~ returned g -> ~ panicked g ->
  held = true \/ m = false -> (held = true -> m = true) ->
  exists m' g', gstep m g m' g'.
Proof.
  intros Hholds Hnot Hnp Hfree Hheld.
  destruct g as [p|t mw k]; [destruct p|]; simpl in *.
  - destruct Hnot. by eexists.
  - by destruct Hnp.
  - destruct Hholds as [-> _]. destruct Hfree as [?| ->]; [done|].
    eexists _, _. apply gstep_lock.
  - destruct Hholds as [-> _]. rewrite Hheld by done.
    eexists _, _. apply gstep_unlock.
  - eexists _, _. apply (gstep_now _ _ 0).
  - eexists _, _. apply gstep_pow_call.
  - eexists _, _. apply (gstep_next _ _ _ (0, None)).
  - eexists _, _. apply (gstep_marshal _ _ _ ([], None)).
  - eexists _, _. apply gstep_printf.
  - eexists _, _. apply gstep_header.
  - eexists _, _. apply gstep_write.
  - eexists _, _. apply (gstep_pow_return _ _ _ _ ("", None)).
Qed.

(** Behind the gate, the goroutine that holds the mutex can go on. *)
Lemma gated_progress {R : Type} (pool : Pool R) i g :
  gated pool ->
  goroutines pool !! i = Some g -> ~ returned g -> ~ panicked g ->
  exists pool', step pool pool'.
Proof.
  intros (owner & Hmu & Hown & Hgs) Hi Hnot Hnp.
  destruct pool as [m gs]. simpl in *.
  assert (forall j gj held, gs !! j = Some gj -> holds held gj ->
            ~ returned gj -> ~ panicked gj ->
            held = true \/ m = false -> (held = true -> m = true) ->
            exists pool', step (mkPool m gs) pool') as Hgo.
  { intros j gj held Hj Hh Hn Hp Hfree Hheld.
    destruct (gstep_progress m gj held) as (m' & g' & Hstep); try done.
    eexists. by eapply step_goroutine. }
  destruct owner as [o|].
  - destruct (lookup_lt_is_Some_2 gs o (Hown o eq_refl)) as [go Hgo'].
    pose proof (Hgs _ _ Hgo') as Hh. rewrite bool_decide_true in Hh by done.
    apply (Hgo o go true); [done|done| | |by left|done].
    + intros [res ->]. done.
    + intros ->. done.
  - apply (Hgo i g false); [done| |done|done|by right|done].
    pose proof (Hgs _ _ Hi) as Hh. by rewrite bool_decide_false in Hh.
Qed.

Section Progress.

Context {P : Type} `{!giota.Codec P}.
Variable jsonDecode : Decoder.
Variable maxTxInBundle : Z.

(** X13. However the goroutines of any number of requests have been
    scheduled, as long as the handler of one request has neither returned
    nor panicked some goroutine can go on: no handler waits for a mutex
    that is never given back.  A handler that panics does so before it
    takes the mutex, and one that holds it gives it back before it ends. *)
Theorem serving_never_stuck rs pool i g :
  rtc step (serve (ServeHTTP jsonDecode maxTxInBundle) rs) pool ->
  goroutines pool !! i = Some g -> ~ returned g -> ~ panicked g ->
  exists pool', step pool pool'.
Proof.
  intros Hsteps. apply gated_progress.
  eapply gated_rtc; [|done]. apply gated_serve, bracketed_ServeHTTP.
Qed.

End Progress.

(** ** The calls of the proof-of-work function *)

Section Calls.

Context {P : Type} `{!giota.Codec P}.

Lemma powCalls_app evs evs' : powCalls (evs ++ evs') = powCalls evs ++ powCalls evs'.
Proof. apply omap_app. Qed.

(** The loop calls the proof-of-work function once in every pass, with the
    difficulty it was given; it makes a pass when there is a transaction,
    and all of them when no call fails. *)
Lemma rounds_powCalls mwm (tx tx' : list (giota.Transaction P)) n k evs err :
  rounds mwm tx tx' n k evs err ->
  length (powCalls evs) = (n - k)%nat /\
  (n <> 0%nat -> (k < n)%nat) /\
  Forall (fun c => c.1.2 = mwm) (powCalls evs) /\
  (Forall (fun c => c.2.2 = None) (powCalls evs) -> k = 0%nat /\ err = None).
Proof.
  induction 1 as [|i t0 t' ns nonce e|i k t0 t' ns nonce evs err Ht0 Ht' Hts Hno Hr IH]; simpl.
  - split; [done|]. split; [done|]. split; [constructor|done].
  - split; [lia|]. split; [lia|]. split; [by repeat constructor|].
    intros Hall. apply Forall_cons in Hall as [? _]. done.
  - destruct IH as (Hlen & _ & Hmwm & Hok).
    destruct (rounds_bounds _ _ _ _ _ _ _ Hr) as [Hk _].
    split; [rewrite Hlen; lia|]. split; [lia|]. split; [by constructor|].
    intros Hall. apply Forall_cons in Hall as [_ Hall]. by apply Hok.
Qed.

(** [doPow] returns; its calls are the passes of its loop, over the
    transactions it has stamped. *)
Lemma doPow_passes (tra : Transaction P) tx mwm env w :
  exists tx' err w' k evs,
    run env (doPow tra tx mwm) w = (Returned (tx', err), w') /\
    since w w' = evs /\
    rounds mwm tx tx' (length tx) k evs err /\
    stampedFrom tra "" (length tx) k tx tx'.
Proof.
  destruct (lockfree_run env (doPow tra tx mwm) w _ (lockfree_doPow tra tx mwm)
              (doPowFrom_rounds tra mwm (length tx) tx "" (trace w) (le_n _)))
    as ([tx' err] & w' & Hrun & _ & k & evs & Htr & Hr & Hst).
  exists tx', err, w', k, evs. split; [done|]. split; [by apply since_app|done].
Qed.

(** C9, as the code has it. [doPow] goes through the transactions from the
    newest down to the index [k] where it stops: it calls the
    proof-of-work function once for each of them, goes through the newest
    whenever there is one, and through all of them when no call fails.
    Every transaction it went through has the empty trytes as lower bound
    and the constant [maxTimestampTrytes] as upper bound of its attachment
    timestamp; the transactions before [k] are as they were. *)
Theorem doPow_bounds (tra : Transaction P) tx mwm env w :
  exists tx' err w' k,
    run env (doPow tra tx mwm) w = (Returned (tx', err), w') /\
    (tx <> [] -> (k < length tx)%nat) /\
    length (powCalls (since w w')) = (length tx - k)%nat /\
    (err = None -> k = 0%nat) /\
    (Forall (fun c => c.2.2 = None) (powCalls (since w w')) -> k = 0%nat /\ err = None) /\
    (forall j, (j < k)%nat -> tx' !! j = tx !! j) /\
    forall j t', (k <= j)%nat -> tx' !! j = Some t' ->
      giota.AttachmentTimestampLowerBound t' = "" /\
      giota.AttachmentTimestampUpperBound t' = maxTimestampTrytes.
Proof.
  destruct (doPow_passes tra tx mwm env w)
    as (tx' & err & w' & k & evs & Hrun & <- & Hr & Hlen & Hout & Hin).
  destruct (rounds_powCalls _ _ _ _ _ _ _ Hr) as (Hcalls & Hk & _ & Hok).
  exists tx', err, w', k. split; [done|]. split.
  { intros Hne. apply Hk. by destruct tx. }
  split; [done|]. split.
  { intros ->. by destruct (rounds_error _ _ _ _ _ _ _ Hr). }
  split; [done|]. split.
  - intros j Hj. apply Hout. lia.
  - intros j t' Hj Ht'.
    assert (j < length tx)%nat as Hlt by (rewrite <- Hlen; by eapply lookup_lt_Some).
    by destruct (Hin j t') as (_ & Hlo & Hup & _); [lia|done|].
Qed.

End Calls.

(** *** What the two bounds stand for *)

(** No slice of trits stands for more than [(3 ^ n - 1) / 2]. *)
Lemma trits_value_le (t : list Z) :
  Forall (fun x => -1 <= x <= 1) t ->
  2 * Trinary.value t <= 3 ^ Z.of_nat (length t) - 1.
Proof.
  induction 1 as [|x t Hx _ IH]; simpl Trinary.value; [done|].
  rewrite length_cons, Nat2Z.inj_succ, Z.pow_succ_r by lia. lia.
Qed.

(** ** The difficulty *)

Section Difficulty.

Context {P : Type} `{!giota.Codec P}.
Variable maxTxInBundle : Z.

(** The calls of the proof-of-work function for a bundle that decodes are
    the passes of [doPow] with 14. *)
Lemma intercepted_powCalls jsonDecode r contents command env w :
  intercepted jsonDecode r contents command ->
  Trytes command <> [] ->
  ~ Z.of_nat (length (Trytes command)) > maxTxInBundle ->
  Forall (fun s => is_Some (giota.NewTransaction s)) (Trytes command) ->
  locked w = false ->
  exists res w' txs attached k pows err,
    run env (ServeHTTP jsonDecode maxTxInBundle r) w = (Returned res, w') /\
    length txs = length (Trytes command) /\
    rounds 14 txs attached (length txs) k pows err /\
    powCalls (since w w') = powCalls pows.
Proof.
  intros Hint Hne Hmax Hall Hw.
  destruct (ServeHTTP_intercepted_run jsonDecode maxTxInBundle r contents command env w
              Hint Hw) as (res & tr' & Hrun & start & Hans).
  simpl in Hans.
  destruct Hans as [[Hnil _]|[(_ & Hgt & _)|[(_ & _ & Hnone & _)|(_ & _ & txs & Hsome & Hserved)]]];
    [done|done| |].
  { apply mapM_None, Exists_exists in Hnone as (s & Hin & Hs).
    rewrite elem_of_reverse in Hin. rewrite Forall_forall in Hall.
    destruct (Hall s Hin) as [t Ht]. congruence. }
  destruct Hserved
    as (s & attached & err & k & pows & t1 & t2 & [resBytes oerr] & Hr & Hst & -> & ->).
  eexists _, _, txs, attached, k, pows, err. split; [done|]. split.
  { apply length_mapM in Hsome. by rewrite <- Hsome, length_reverse. }
  split; [done|].
  unfold since. simpl trace. rewrite <- !app_assoc, drop_app_length.
  destruct (isValue txs), oerr; simpl;
    repeat (rewrite powCalls_app; simpl); by rewrite ?app_nil_r.
Qed.

(** C4. The handler calls the proof-of-work function with 14, whatever
    [minWeightMagnitude] the request has: two decoders that differ at most
    in the [minWeightMagnitude] they read give the same handler, and every
    call of the proof-of-work function in every run has the difficulty 14.
    For a bundle that decodes the function is called: once for every
    transaction when no call fails, and at least once; each of these calls
    has the difficulty 14. *)
Theorem mwm_ignored (jsonDecode jsonDecode' : Decoder) r env w :
  sameExceptMWM jsonDecode jsonDecode' ->
  ServeHTTP jsonDecode' maxTxInBundle r = ServeHTTP jsonDecode maxTxInBundle r /\
  (exists evs,
     trace (run env (ServeHTTP jsonDecode maxTxInBundle r) w).2 = trace w ++ evs /\
     forall t m res, EvPow t m res ∈ evs -> m = 14) /\
  forall contents command,
    intercepted jsonDecode r contents command ->
    Trytes command <> [] ->
    ~ Z.of_nat (length (Trytes command)) > maxTxInBundle ->
    Forall (fun s => is_Some (giota.NewTransaction s)) (Trytes command) ->
    locked w = false ->
    exists res w',
      run env (ServeHTTP jsonDecode maxTxInBundle r) w = (Returned res, w') /\
      (1 <= length (powCalls (since w w')) <= length (Trytes command))%nat /\
      (Forall (fun c => c.2.2 = None) (powCalls (since w w')) ->
       length (powCalls (since w w')) = length (Trytes command)) /\
      Forall (fun c => c.1.2 = 14) (powCalls (since w w')).
Proof.
  intros Hagree. split; [|split].
  - unfold ServeHTTP. destruct (negb _); [done|]. destruct (Body r) as [body|]; [|done].
    destruct (ReadAll body) as [contents [e|]]; [done|].
    destruct (Hagree contents) as [Hcmd Herr].
    destruct (jsonDecode contents) as [command err], (jsonDecode' contents) as [command' err'].
    simpl in Hcmd, Herr. subst err'. destruct err as [e|]; [done|].
    destruct Hcmd as [c c' (Hc & Ht & Hb & Hl)|]; [|done].
    rewrite <- Hc. destruct (negb _); [done|].
    destruct c, c'; simpl in *; by subst.
  - destruct (emits_run serveCall env (ServeHTTP jsonDecode maxTxInBundle r) w
                (emits_ServeHTTP _ _ _)) as (evs & Hevs & Hok).
    exists evs. split; [done|]. intros t m res Hin.
    rewrite Forall_forall in Hok. apply (Hok _ Hin).
  - intros contents command Hint Hne Hmax Hall Hw.
    destruct (intercepted_powCalls jsonDecode r contents command env w Hint Hne Hmax Hall Hw)
      as (res & w' & txs & attached & k & pows & err & Hrun & Hlen & Hr & Hpows).
    destruct (rounds_powCalls _ _ _ _ _ _ _ Hr) as (Hcalls & Hk & Hmwm & Hok).
    exists res, w'. split; [done|]. rewrite Hpows, Hcalls, <- Hlen.
    assert (length txs <> 0%nat) as Hpos.
    { rewrite Hlen. by destruct (Trytes command). }
    split; [specialize (Hk Hpos); lia|]. split; [|done].
    intros Hsucc. destruct (Hok Hsucc) as [-> _]. lia.
Qed.

End Difficulty.

(** ** The handler at work on more requests *)

(** X1 at work: a body that fails when it is read. *)
Lemma missing_body_refused_witness :
  (Method Cases.unreadable = MethodPost /\
   (Body Cases.unreadable = None \/
    exists body e, Body Cases.unreadable = Some body /\ (ReadAll body).2 = Some e)) /\
  (Fixture.serveHTTP Fixture.two 200 Cases.unreadable =
     Ret (StatusBadRequest, Some ErrMissingBody) /\
   forall env w,
     run env (Fixture.serveHTTP Fixture.two 200 Cases.unreadable) w =
       (Returned (StatusBadRequest, Some ErrMissingBody), w)).
Proof.
  assert (Body Cases.unreadable = None \/
          exists body e, Body Cases.unreadable = Some body /\ (ReadAll body).2 = Some e)
    as Hbody.
  { right. by eexists _, _. }
  split; [done|].
  by apply (missing_body_refused (H := Fixture.codec) (Fixture.decodeAs Fixture.two) 200
              Cases.unreadable).
Defined.

(** X2 at work: a [getNodeInfo] command in a body of two bytes. *)
Lemma other_commands_forwarded_witness :
  (Method Cases.posted = MethodPost /\
   Body Cases.posted = Some (Reader [Byte.x7b; Byte.x7d]) /\
   ReadAll (Reader [Byte.x7b; Byte.x7d]) = ([Byte.x7b; Byte.x7d], None) /\
   (is_Some (Fixture.decodeAs Cases.getNodeInfo [Byte.x7b; Byte.x7d]).2 \/
    exists command,
      Fixture.decodeAs Cases.getNodeInfo [Byte.x7b; Byte.x7d] = (Some command, None) /\
      Command command <> attachToTangleCommand)) /\
  (Fixture.serveHTTP Cases.getNodeInfo 200 Cases.posted =
     NextServeHTTP (setBody (NopCloser [Byte.x7b; Byte.x7d]) Cases.posted) Ret /\
   Method (setBody (NopCloser [Byte.x7b; Byte.x7d]) Cases.posted) = Method Cases.posted /\
   RemoteAddr (setBody (NopCloser [Byte.x7b; Byte.x7d]) Cases.posted) =
     RemoteAddr Cases.posted /\
   ReadAll (drained (Reader [Byte.x7b; Byte.x7d])) = ([], None) /\
   (exists body',
      Body (setBody (NopCloser [Byte.x7b; Byte.x7d]) Cases.posted) = Some body' /\
      ReadAll body' = ([Byte.x7b; Byte.x7d], None)) /\
   ([Byte.x7b; Byte.x7d] <> [] ->
    Body (setBody (NopCloser [Byte.x7b; Byte.x7d]) Cases.posted) <>
      Some (drained (Reader [Byte.x7b; Byte.x7d])))).
Proof.
  assert (is_Some (Fixture.decodeAs Cases.getNodeInfo [Byte.x7b; Byte.x7d]).2 \/
          exists command,
            Fixture.decodeAs Cases.getNodeInfo [Byte.x7b; Byte.x7d] = (Some command, None) /\
            Command command <> attachToTangleCommand) as Hdec.
  { right. by exists Cases.getNodeInfo. }
  split; [done|].
  exact (other_commands_forwarded (H := Fixture.codec) (Fixture.decodeAs Cases.getNodeInfo)
           200 Cases.posted (Reader [Byte.x7b; Byte.x7d]) [Byte.x7b; Byte.x7d]
           eq_refl eq_refl eq_refl Hdec).
Defined.

(** X3 at work: the second of two entries does not decode. *)
Lemma malformed_transaction_refused_witness :
  (intercepted (Fixture.decodeAs Cases.malformed) Fixture.post [] Cases.malformed /\
   Trytes Cases.malformed <> [] /\
   ~ Z.of_nat (length (Trytes Cases.malformed)) > 200 /\
   locked Fixture.idle = false) /\
  exists res w',
    run (Fixture.env Fixture.found) (Fixture.serveHTTP Cases.malformed 200 Fixture.post)
        Fixture.idle = (Returned res, w') /\
    (Exists (fun s => giota.NewTransaction (Codec := Fixture.codec) s = None)
            (Trytes Cases.malformed) <->
     res = (StatusBadRequest, Some ErrBuildingTx)) /\
    (res = (StatusBadRequest, Some ErrBuildingTx) ->
     exists ns,
       w' = mkWorld (trace Fixture.idle ++
                       [EvLock; EvPrintf (LogNewRequest (RemoteAddr Fixture.post));
                        EvNow ns; EvUnlock]) false).
Proof.
  assert (intercepted (Fixture.decodeAs Cases.malformed) Fixture.post [] Cases.malformed)
    as Hint.
  { split; [done|]. split; [by exists (Reader [])|done]. }
  assert (~ Z.of_nat (length (Trytes Cases.malformed)) > 200) as Hmax by (by vm_compute).
  split; [done|].
  by apply (malformed_transaction_refused (H := Fixture.codec)
              (Fixture.decodeAs Cases.malformed) 200 Fixture.post [] Cases.malformed
              (Fixture.env Fixture.found) Fixture.idle).
Defined.

(** X4 at work: one output and two inputs. *)
Lemma bundle_classified_witness :
  exists b v (transactions : list (giota.Transaction string)),
    buildFrom (H := Fixture.codec) Cases.valued (length Cases.valued) false 0 [] =
      Ret (Some (b, v, transactions)) /\
    (Forall2 (decodes (H := Fixture.codec)) (reverse Cases.valued) transactions /\
     (b = true <-> Exists (fun t => giota.Value t > 0) transactions) /\
     v = wrap64 (negativeSum transactions)).
Proof.
  eexists _, _, _. split; [vm_compute; reflexivity|].
  apply (bundle_classified (H := Fixture.codec) Cases.valued).
  vm_compute. reflexivity.
Defined.

(** X5 at work: two entries that decode. *)
Lemma encoder_decides_status_witness :
  (intercepted (Fixture.decodeAs Fixture.two) Fixture.post [] Fixture.two /\
   Trytes Fixture.two <> [] /\
   ~ Z.of_nat (length (Trytes Fixture.two)) > 200 /\
   Forall (fun s => is_Some (giota.NewTransaction (Codec := Fixture.codec) s))
          (Trytes Fixture.two) /\
   locked Fixture.idle = false) /\
  exists res w' pre response out,
    run (Fixture.env Fixture.found) (Fixture.serveHTTP Fixture.two 200 Fixture.post)
        Fixture.idle = (Returned res, w') /\
    locked w' = false /\
    length (ResTrytes response) = length (Trytes Fixture.two) /\
    Forall silent pre /\
    match out.2 with
    | None =>
        res = (StatusOK, None) /\
        since Fixture.idle w' =
          pre ++ [EvMarshal response out;
                  EvHeaderSet contentType contentTypeJSON;
                  EvHeaderSet "access-control-allow-origin" "*";
                  EvWrite out.1;
                  EvUnlock]
    | Some _ =>
        res = (StatusInternalServerError, Some ErrBuildingRes) /\
        since Fixture.idle w' = pre ++ [EvMarshal response out; EvUnlock]
    end.
Proof.
  assert (intercepted (Fixture.decodeAs Fixture.two) Fixture.post [] Fixture.two) as Hint.
  { split; [done|]. split; [by exists (Reader [])|done]. }
  assert (~ Z.of_nat (length (Trytes Fixture.two)) > 200) as Hmax by (by vm_compute).
  assert (Forall (fun s => is_Some (giota.NewTransaction (Codec := Fixture.codec) s))
                 (Trytes Fixture.two)) as Hall.
  { repeat constructor; by eexists. }
  split; [done|].
  by apply (encoder_decides_status (H := Fixture.codec) (Fixture.decodeAs Fixture.two) 200
              Fixture.post [] Fixture.two (Fixture.env Fixture.found) Fixture.idle).
Defined.

(** X6 at work: the request [A; B] with a proof of work that succeeds. *)
Lemma response_links_witness :
  exists w',
    (intercepted (Fixture.decodeAs Fixture.two) Fixture.post [] Fixture.two /\
     Trytes Fixture.two <> [] /\
     run (Fixture.env Fixture.found) (Fixture.serveHTTP Fixture.two 200 Fixture.post)
         Fixture.idle = (Returned (StatusOK, None), w') /\
     (forall t m res, EvPow t m res ∈ since Fixture.idle w' -> res.2 = None)) /\
    exists (attached : list (giota.Transaction string)) response,
      responded (trace w') response /\
      ResTrytes response = giota.TxTrytes (Codec := Fixture.codec) <$> attached /\
      length attached = length (Trytes Fixture.two) /\
      forall j s, Trytes Fixture.two !! j = Some s ->
        exists t t',
          decodes (H := Fixture.codec) s t /\
          attached !! (length (Trytes Fixture.two) - 1 - j)%nat = Some t' /\
          frame t t' /\
          if decide (j = 0%nat)
          then giota.TrunkTransaction t' = TrunkTxHash Fixture.two /\
               giota.BranchTransaction t' = BranchTxHash Fixture.two
          else giota.BranchTransaction t' = TrunkTxHash Fixture.two /\
               exists u, attached !! (length (Trytes Fixture.two) - j)%nat = Some u /\
                         giota.TrunkTransaction t' = giota.TxHash (Codec := Fixture.codec) u.
Proof.
  pose (w' := (run (Fixture.env Fixture.found)
                 (Fixture.serveHTTP Fixture.two 200 Fixture.post) Fixture.idle).2).
  exists w'.
  assert (intercepted (Fixture.decodeAs Fixture.two) Fixture.post [] Fixture.two) as Hint.
  { split; [done|]. split; [by exists (Reader [])|done]. }
  assert (run (Fixture.env Fixture.found) (Fixture.serveHTTP Fixture.two 200 Fixture.post)
            Fixture.idle = (Returned (StatusOK, None), w')) as Hrun.
  { vm_compute. reflexivity. }
  assert (forall t m res, EvPow t m res ∈ since Fixture.idle w' -> res.2 = None) as Hpows.
  { assert (Forall (fun e => match e with EvPow _ _ res => res.2 = None | _ => True end)
                   (since Fixture.idle w')) as Hall.
    { vm_compute. by repeat constructor. }
    intros t m res Hin. rewrite Forall_forall in Hall. apply (Hall _ Hin). }
  assert (Trytes Fixture.two <> []) as Hne by discriminate.
  split; [exact (conj Hint (conj Hne (conj Hrun Hpows)))|].
  exact (response_links (H := Fixture.codec) (Fixture.decodeAs Fixture.two) 200
           Fixture.post [] Fixture.two (Fixture.env Fixture.found) Fixture.idle w'
           Hint Hne Hrun Hpows).
Defined.

(** X9 at work: the headers and the body of an answer with 200. *)
Lemma writes_only_with_200_witness :
  exists res w',
    (run (Fixture.env Fixture.found) (Fixture.serveHTTP Fixture.two 200 Fixture.post)
         Fixture.idle = (Returned res, w') /\
     Exists (fun e => ~ silent e) (since Fixture.idle w')) /\
    res = (StatusOK, None).
Proof.
  pose (out := run (Fixture.env Fixture.found)
                 (Fixture.serveHTTP Fixture.two 200 Fixture.post) Fixture.idle).
  exists (match out.1 with Returned res => res | _ => (0, None) end), out.2.
  assert (run (Fixture.env Fixture.found) (Fixture.serveHTTP Fixture.two 200 Fixture.post)
            Fixture.idle =
          (Returned (match out.1 with Returned res => res | _ => (0, None) end), out.2))
    as Hrun.
  { vm_compute. reflexivity. }
  assert (Exists (fun e => ~ silent e) (since Fixture.idle out.2)) as Hex.
  { apply Exists_exists. exists (EvHeaderSet contentType contentTypeJSON).
    split; [by apply (list_elem_of_lookup_2 _ 13%nat)|by intros []]. }
  split; [exact (conj Hrun Hex)|].
  exact (writes_only_with_200 (H := Fixture.codec) (Fixture.decodeAs Fixture.two) 200
           Fixture.post (Fixture.env Fixture.found) Fixture.idle _ out.2 Hrun Hex).
Defined.

(** X10 at work: two entries where two are allowed. *)
Lemma limit_is_inclusive_witness :
  exists res w',
    (intercepted (Fixture.decodeAs Fixture.two) Fixture.post [] Fixture.two /\
     Trytes Fixture.two <> [] /\
     Z.of_nat (length (Trytes Fixture.two)) = 2 /\
     run (Fixture.env Fixture.found) (Fixture.serveHTTP Fixture.two 2 Fixture.post)
         Fixture.idle = (Returned res, w')) /\
    forall msg, res <> (StatusBadRequest, Some (Wrapf ErrTxBundleLimitExceeded msg)).
Proof.
  pose (out := run (Fixture.env Fixture.found)
                 (Fixture.serveHTTP Fixture.two 2 Fixture.post) Fixture.idle).
  exists (match out.1 with Returned res => res | _ => (0, None) end), out.2.
  assert (intercepted (Fixture.decodeAs Fixture.two) Fixture.post [] Fixture.two) as Hint.
  { split; [done|]. split; [by exists (Reader [])|done]. }
  assert (run (Fixture.env Fixture.found) (Fixture.serveHTTP Fixture.two 2 Fixture.post)
            Fixture.idle =
          (Returned (match out.1 with Returned res => res | _ => (0, None) end), out.2))
    as Hrun.
  { vm_compute. reflexivity. }
  assert (Trytes Fixture.two <> []) as Hne by discriminate.
  assert (Z.of_nat (length (Trytes Fixture.two)) = 2) as Hlen by reflexivity.
  split; [exact (conj Hint (conj Hne (conj Hlen Hrun)))|].
  exact (limit_is_inclusive (H := Fixture.codec) (Fixture.decodeAs Fixture.two) 2
           Fixture.post [] Fixture.two (Fixture.env Fixture.found) Fixture.idle _ out.2
           Hint Hne Hlen Hrun).
Defined.

(** X11 at work: an [attachToTangle] request while the mutex is held. *)
Lemma only_attach_waits_witness :
  locked Cases.busy = true /\
  (((exists contents command,
       intercepted (Fixture.decodeAs Fixture.two) Fixture.post contents command) /\
    run (Fixture.env Fixture.found) (Fixture.serveHTTP Fixture.two 200 Fixture.post)
        Cases.busy = (Blocked, Cases.busy)) \/
   (nullCommand (Fixture.decodeAs Fixture.two) Fixture.post /\
    run (Fixture.env Fixture.found) (Fixture.serveHTTP Fixture.two 200 Fixture.post)
        Cases.busy = (Panicked, Cases.busy)) \/
   ((forall contents command,
       ~ intercepted (Fixture.decodeAs Fixture.two) Fixture.post contents command) /\
    ~ nullCommand (Fixture.decodeAs Fixture.two) Fixture.post /\
    exists res w',
      run (Fixture.env Fixture.found) (Fixture.serveHTTP Fixture.two 200 Fixture.post)
          Cases.busy = (Returned res, w') /\
      locked w' = true /\
      Forall (fun e => e <> EvLock /\ e <> EvUnlock) (since Cases.busy w'))).
Proof.
  assert (locked Cases.busy = true) as Hw by reflexivity.
  split; [done|].
  exact (only_attach_waits (H := Fixture.codec) (Fixture.decodeAs Fixture.two) 200
           Fixture.post (Fixture.env Fixture.found) Cases.busy Hw).
Defined.

(** X12 at work: an [attachToTangle] request and a free mutex. *)
Lemma mutex_taken_iff_intercepted_witness :
  locked Fixture.idle = false /\
  ((nullCommand (Fixture.decodeAs Fixture.two) Fixture.post /\
    run (Fixture.env Fixture.found) (Fixture.serveHTTP Fixture.two 200 Fixture.post)
        Fixture.idle = (Panicked, Fixture.idle)) \/
   (~ nullCommand (Fixture.decodeAs Fixture.two) Fixture.post /\
    exists res w',
      run (Fixture.env Fixture.found) (Fixture.serveHTTP Fixture.two 200 Fixture.post)
          Fixture.idle = (Returned res, w') /\
      locked w' = false /\
      ((exists contents command,
          intercepted (Fixture.decodeAs Fixture.two) Fixture.post contents command) <->
       EvLock ∈ since Fixture.idle w') /\
      (EvLock ∈ since Fixture.idle w' ->
       exists evs, since Fixture.idle w' = [EvLock] ++ evs ++ [EvUnlock]))).
Proof.
  assert (locked Fixture.idle = false) as Hw by reflexivity.
  split; [done|].
  exact (mutex_taken_iff_intercepted (H := Fixture.codec) (Fixture.decodeAs Fixture.two) 200
           Fixture.post (Fixture.env Fixture.found) Fixture.idle Hw).
Defined.

(** X13 at work: of two requests, the first has taken the mutex and the
    second waits for it. *)
Lemma serving_never_stuck_witness :
  exists pool,
    (rtc step (serve (Fixture.serveHTTP Fixture.two 200) [Fixture.post; Fixture.post]) pool /\
     goroutines pool !! 1%nat =
       Some (Running (Fixture.serveHTTP Fixture.two 200 Fixture.post)) /\
     ~ returned (Running (Fixture.serveHTTP Fixture.two 200 Fixture.post)) /\
     ~ panicked (Running (Fixture.serveHTTP Fixture.two 200 Fixture.post))) /\
    mu pool = true /\
    exists pool', step pool pool'.
Proof.
  assert (exists pool,
    rtc step (serve (Fixture.serveHTTP Fixture.two 200) [Fixture.post; Fixture.post]) pool /\
    goroutines pool !! 1%nat =
      Some (Running (Fixture.serveHTTP Fixture.two 200 Fixture.post)) /\
    mu pool = true) as (pool & Hsteps & Hg & Hmu).
  { eexists. split.
    - unfold serve. simpl.
      eapply rtc_l; [eapply (step_goroutine _ _ 0%nat); [reflexivity|apply gstep_lock]|simpl].
      apply rtc_refl.
    - split; reflexivity. }
  assert (~ returned (Running (Fixture.serveHTTP Fixture.two 200 Fixture.post))) as Hnot.
  { intros [res Hres]. unfold Fixture.serveHTTP, ServeHTTP in Hres. simpl in Hres.
    discriminate Hres. }
  assert (~ panicked (Running (Fixture.serveHTTP Fixture.two 200 Fixture.post))) as Hnp.
  { intros Hres. unfold panicked, Fixture.serveHTTP, ServeHTTP in Hres. simpl in Hres.
    discriminate Hres. }
  exists pool. split; [exact (conj Hsteps (conj Hg (conj Hnot Hnp)))|]. split; [exact Hmu|].
  exact (serving_never_stuck (H := Fixture.codec) (Fixture.decodeAs Fixture.two) 200
           [Fixture.post; Fixture.post] pool 1%nat
           (Running (Fixture.serveHTTP Fixture.two 200 Fixture.post)) Hsteps Hg Hnot Hnp).
Defined.

(** X14 at work: the body [null]. *)
Lemma null_command_panics_witness :
  nullCommand Cases.decodeNull Cases.posted /\
  (ServeHTTP (H := Fixture.codec) Cases.decodeNull 200 Cases.posted = Panic /\
   forall env w,
     run env (ServeHTTP (H := Fixture.codec) Cases.decodeNull 200 Cases.posted) w =
       (Panicked, w)).
Proof.
  assert (nullCommand Cases.decodeNull Cases.posted) as Hnull.
  { split; [done|]. by exists (Reader [Byte.x7b; Byte.x7d]), [Byte.x7b; Byte.x7d]. }
  split; [done|].
  exact (null_command_panics (H := Fixture.codec) Cases.decodeNull 200 Cases.posted Hnull).
Defined.

(** X15 at work: a bundle of two transactions. *)
Lemma panics_only_on_null_witness :
  ~ nullCommand (Fixture.decodeAs Fixture.two) Fixture.post /\
  (run (Fixture.env Fixture.found) (Fixture.serveHTTP Fixture.two 200 Fixture.post)
       Fixture.idle).1 <> Panicked.
Proof.
  assert (~ nullCommand (Fixture.decodeAs Fixture.two) Fixture.post) as Hnull.
  { intros (_ & body & contents & _ & _ & Hdec). discriminate Hdec. }
  split; [done|].
  exact (panics_only_on_null (H := Fixture.codec) (Fixture.decodeAs Fixture.two) 200
           Fixture.post (Fixture.env Fixture.found) Fixture.idle Hnull).
Defined.

(** C4 at work: the same body read with [minWeightMagnitude] 9 and 18; the
    proof-of-work function is called twice, with 14. *)
Lemma mwm_ignored_witness :
  sameExceptMWM (Fixture.decodeAs Fixture.two)
    (Fixture.decodeAs (mkCmd attachToTangleCommand "TRUNK" "BRANCH" 18 ["A"; "B"])) /\
  (ServeHTTP (H := Fixture.codec)
     (Fixture.decodeAs (mkCmd attachToTangleCommand "TRUNK" "BRANCH" 18 ["A"; "B"]))
     200 Fixture.post
   = ServeHTTP (H := Fixture.codec) (Fixture.decodeAs Fixture.two) 200 Fixture.post /\
   (exists evs,
      trace (run (Fixture.env Fixture.found)
               (ServeHTTP (H := Fixture.codec) (Fixture.decodeAs Fixture.two) 200 Fixture.post)
               Fixture.idle).2 = trace Fixture.idle ++ evs /\
      forall t m res, EvPow t m res ∈ evs -> m = 14) /\
   exists res w',
     run (Fixture.env Fixture.found)
       (ServeHTTP (H := Fixture.codec) (Fixture.decodeAs Fixture.two) 200 Fixture.post)
       Fixture.idle = (Returned res, w') /\
     (1 <= length (powCalls (since Fixture.idle w')) <= length (Trytes Fixture.two))%nat /\
     (Forall (fun c => c.2.2 = None) (powCalls (since Fixture.idle w')) ->
      length (powCalls (since Fixture.idle w')) = length (Trytes Fixture.two)) /\
     Forall (fun c => c.1.2 = 14) (powCalls (since Fixture.idle w'))).
Proof.
  assert (sameExceptMWM (Fixture.decodeAs Fixture.two)
            (Fixture.decodeAs (mkCmd attachToTangleCommand "TRUNK" "BRANCH" 18 ["A"; "B"])))
    as Hagree.
  { intros b. split; [by constructor|done]. }
  assert (intercepted (Fixture.decodeAs Fixture.two) Fixture.post [] Fixture.two) as Hint.
  { split; [done|]. split; [by exists (Reader [])|done]. }
  assert (Trytes Fixture.two <> []) as Hne by discriminate.
  assert (~ Z.of_nat (length (Trytes Fixture.two)) > 200) as Hmax by (by vm_compute).
  assert (Forall (fun s => is_Some (giota.NewTransaction (Codec := Fixture.codec) s))
                 (Trytes Fixture.two)) as Hall.
  { repeat constructor; by eexists. }
  split; [exact Hagree|].
  destruct (mwm_ignored (H := Fixture.codec) 200 (Fixture.decodeAs Fixture.two)
              (Fixture.decodeAs (mkCmd attachToTangleCommand "TRUNK" "BRANCH" 18 ["A"; "B"]))
              Fixture.post (Fixture.env Fixture.found) Fixture.idle Hagree)
    as (Hsame & Hevs & Hcalls).
  split; [exact Hsame|]. split; [exact Hevs|].
  exact (Hcalls [] Fixture.two Hint Hne Hmax Hall eq_refl).
Defined.

(** C9 as the spec has it fails.  With the timestamp encoded as the
    library does it, the encoding of zero is nine trytes [9] and the
    greatest number the 27 trits of a timestamp stand for is encoded as
    nine trytes [M]; [doPow] leaves the empty trytes as lower bound, and as
    upper bound nine trytes that are the encoding of 12. *)
Lemma doPow_bounds_counterexample :
  exists (tx' : list (giota.Transaction string)) w' t',
    run (Fixture.env Fixture.found)
        (doPow (H := Trinary.codec) Fixture.bundle (Transactions Fixture.bundle) 14)
        Fixture.idle
      = (Returned (tx', None), w') /\
    tx' !! 0%nat = Some t' /\
    giota.TimestampTrytes (Codec := Trinary.codec) 0 = "999999999" /\
    giota.AttachmentTimestampLowerBound t' = "" /\
    giota.AttachmentTimestampLowerBound t' <> giota.TimestampTrytes (Codec := Trinary.codec) 0 /\
    Trinary.value (Trinary.Int2Trits Trinary.maxTimestamp Trinary.TimestampTrinarySize) =
      Trinary.maxTimestamp /\
    2 * Trinary.maxTimestamp = 3 ^ Z.of_nat Trinary.TimestampTrinarySize - 1 /\
    giota.TimestampTrytes (Codec := Trinary.codec) Trinary.maxTimestamp = "MMMMMMMMM" /\
    giota.AttachmentTimestampUpperBound t' = giota.TimestampTrytes (Codec := Trinary.codec) 12 /\
    giota.AttachmentTimestampUpperBound t' <>
      giota.TimestampTrytes (Codec := Trinary.codec) Trinary.maxTimestamp.
Proof.
  eexists _, _, _. split; [vm_compute; reflexivity|]. split; [reflexivity|].
  split; [by vm_compute|]. split; [reflexivity|]. split; [by vm_compute|].
  split; [by vm_compute|]. split; [by vm_compute|]. split; [by vm_compute|].
  split; by vm_compute.
Qed.
